(** * SAE-TS: verification of [sae_ts/baselines/analysis.py]

    A shallow embedding of the steering-analysis script: the four
    steering-vector loaders, the scale sweep with its scoring, the
    arg-max report and the sweep over configurations.

    Numbers.  Rubric scores and their means are Python floats; they are
    modelled by exact rationals ([Q], compared with [Qeq]).  Torch tensors
    are modelled by lists of real numbers ([R]); a tensor that the float
    code would poison with NaN (0/0) is the distinguished value
    [NonFinite].  Rounding, underflow and overflow of the floats are not
    modelled: what is proved of a vector holds of the float vector up to
    rounding, and as long as no intermediate norm leaves the range of the
    floats.

    Effects.  Everything the script does to the outside (files, the
    hub, the language model, the evaluator) goes through a [world] of
    oracles; each call is logged as an [event], so that a run is a result
    together with a trace, and exceptions are values of [exn].  Console
    output and the progress bar are left out, and so is the cell that loads
    the language model. *)

From Stdlib Require Import ZArith QArith Reals Psatz Lia Ascii String List DecimalString.
From stdpp Require Import base gmap strings list.
Import ListNotations.

#[local] Set Warnings "-register-all".

Local Open Scope string_scope.
Local Open Scope Z_scope.

(** ** Python values and exceptions *)

(** The exceptions the script can meet.  [ExternalError] stands for
    whatever a third-party call raises by itself. *)
Inductive exn : Type :=
| ValueError (msg : string)
| KeyError (key : string)
| IndexError
| TypeError
| AttributeError
| ZeroDivisionError
| OverflowError
| RuntimeError (msg : string)
| FileNotFoundError (file : string)
| OSError (file : string)
| ExternalError (who : string).

Inductive res (A : Type) : Type :=
| Ok (a : A)
| Raise (e : exn).
Arguments Ok {A} a.
Arguments Raise {A} e.

#[global] Instance res_ret : MRet res := fun _ a => Ok a.
#[global] Instance res_bind : MBind res := fun _ _ k r =>
  match r with
  | Ok a => k a
  | Raise e => Raise e
  end.

(** What [json.load] returns, and what the evaluator hands back. *)
Inductive pyval : Type :=
| PNone
| PBool (b : bool)
| PInt (z : Z)
| PFloat (q : Q)
| PStr (s : string)
| PList (l : list pyval)
| PDict (d : gmap string pyval).

(** [v == s] for a string literal [s]. *)
Definition py_eq_str (v : pyval) (s : string) : bool :=
  match v with
  | PStr s' => String.eqb s' s
  | _ => false
  end.

(** [d.get(key, default)] *)
Definition py_get (v : pyval) (key : string) (default : pyval) : res pyval :=
  match v with
  | PDict d => Ok (match d !! key with Some x => x | None => default end)
  | _ => Raise AttributeError
  end.

(** [d[key]] for a string key *)
Definition py_getitem (v : pyval) (key : string) : res pyval :=
  match v with
  | PDict d => match d !! key with Some x => Ok x | None => Raise (KeyError key) end
  | _ => Raise TypeError
  end.

(** Python's index normalisation on a sequence of length [n]:
    [-n <= i < n], negative indices counting from the end. *)
Definition py_index (n : nat) (i : Z) : option nat :=
  if (0 <=? i) && (i <? Z.of_nat n) then Some (Z.to_nat i)
  else if (- Z.of_nat n <=? i) && (i <? 0) then Some (Z.to_nat (i + Z.of_nat n))
  else None.

Definition string_of_Z (z : Z) : string :=
  NilZero.string_of_int (Z.to_int z).

(** [v[i]] for an integer literal [i] *)
Definition py_getitem_int (v : pyval) (i : Z) : res pyval :=
  match v with
  | PList l =>
      match py_index (length l) i with
      | Some k => match nth_error l k with Some x => Ok x | None => Raise IndexError end
      | None => Raise IndexError
      end
  | PStr s =>
      match py_index (String.length s) i with
      | Some k => match String.get k s with
                  | Some c => Ok (PStr (String c EmptyString))
                  | None => Raise IndexError
                  end
      | None => Raise IndexError
      end
  | PDict _ => Raise (KeyError (string_of_Z i))
  | _ => Raise TypeError
  end.

(** A Python number as a rational: [int], [float], and [bool] (an [int]). *)
Definition py_number (v : pyval) : res Q :=
  match v with
  | PInt z => Ok (inject_Z z)
  | PFloat q => Ok q
  | PBool b => Ok (if b then 1%Q else 0%Q)
  | _ => Raise TypeError
  end.

(** [range(start, stop, step)] for a positive step. *)
Definition py_range (start stop step : Z) : list Z :=
  if step <=? 0 then []
  else map (fun k => start + Z.of_nat k * step)
           (seq 0 (Z.to_nat ((stop - start + step - 1) / step))).

(** [os.path.join(a, b)] for a relative [b]. *)
Definition ends_with_slash (a : string) : bool :=
  match String.get (String.length a - 1)%nat a with
  | Some c => Ascii.eqb c "/"%char
  | None => false
  end.

Definition path_join (a b : string) : string :=
  if String.eqb a "" then b
  else if ends_with_slash a then a ++ b
  else a ++ "/" ++ b.

(** [s.replace(" ", "_")] *)
Fixpoint replace_spaces (s : string) : string :=
  match s with
  | EmptyString => EmptyString
  | String c s' =>
      String (if Ascii.eqb c " "%char then "_"%char else c) (replace_spaces s')
  end.

(** ** Tensors

    A vector is a list of reals, a matrix the list of its rows.  The
    operations are those of torch on operands of conforming shapes, and
    the loaders below only build such operands ([load_state_dict] checks
    the shapes of the adapter).  On other operands, which torch rejects
    with [RuntimeError], they truncate to the shorter one: a statement
    about [single_step_steer] or [pinverse_steer] on operands of its own
    asks for [conforming] ones. *)

Definition matrix : Type := list (list R).

(** A float vector: all entries finite, or some entry NaN or infinite. *)
Inductive tensor : Type :=
| Fin (v : list R)
| NonFinite.

(** Arithmetic on a non-finite tensor stays non-finite. *)
Definition tensor_bind (t : tensor) (k : list R -> tensor) : tensor :=
  match t with
  | Fin v => k v
  | NonFinite => NonFinite
  end.

Definition dot (u v : list R) : R :=
  fold_right Rplus 0%R (zip_with Rmult u v).

(** [torch.norm(v)], the L2 norm *)
Definition norm (v : list R) : R := sqrt (dot v v).

Definition vscale (c : R) (v : list R) : list R := map (fun x => (x * c)%R) v.
Definition vadd (u v : list R) : list R := zip_with Rplus u v.
Definition vsub (u v : list R) : list R := zip_with Rminus u v.
Definition zeros (n : nat) : list R := replicate n 0%R.

(** [M.shape[0]] and [M.shape[1]] *)
Definition shape0 (M : matrix) : nat := length M.
Definition shape1 (M : matrix) : nat := length (hd [] M).

(** [W @ v], matrix times vector *)
Definition matvec (W : matrix) (v : list R) : list R :=
  map (fun row => dot row v) W.

(** the combination of the rows of [M], of length [p], with the
    coefficients [x] *)
Definition row_combination (p : nat) (x : list R) (M : matrix) : list R :=
  fold_right vadd (zeros p) (zip_with vscale x M).

(** [x @ M], row vector times matrix *)
Definition vecmat (x : list R) (M : matrix) : list R :=
  row_combination (shape1 M) x M.

Definition matmul (A B : matrix) : matrix := map (fun row => vecmat row B) A.

Definition transpose (M : matrix) : matrix :=
  map (fun j => map (fun row => nth j row 0%R) M) (seq 0 (shape1 M)).

(** all rows of [M] are as long as its first row *)
Definition rect (M : matrix) : Prop := Forall (fun row => length row = shape1 M) M.

(** [v / d] for a scalar tensor [d]: dividing a non-empty vector by zero
    gives NaN or infinite entries. *)
Definition vdiv (v : list R) (d : R) : tensor :=
  match v with
  | [] => Fin []
  | _ :: _ => if Req_dec_T d 0%R then NonFinite else Fin (map (fun x => (x / d)%R) v)
  end.

(** [t / torch.norm(t)], also written [t / torch.norm(t, dim=-1,
    keepdim=True)] in the source for a one-dimensional [t]. *)
Definition normalise (t : tensor) : tensor :=
  match t with
  | Fin v => vdiv v (norm v)
  | NonFinite => NonFinite
  end.

(** The property the spec asks of a steering vector. *)
Definition unit_norm (t : tensor) : Prop :=
  match t with
  | Fin v => norm v = 1%R
  | NonFinite => False
  end.

(** The four Penrose equations, with the shape of the transpose: [X] is the
    Moore-Penrose pseudo-inverse of [A]. *)
Definition is_pinv (A X : matrix) : Prop :=
  shape0 X = shape1 A /\ Forall (fun row => length row = shape0 A) X /\
  matmul (matmul A X) A = A /\
  matmul (matmul X A) X = X /\
  transpose (matmul A X) = matmul A X /\
  transpose (matmul X A) = matmul X A.

(** The operands of the two solvers have the shapes torch asks for: the
    weight is a [d_in] x [d_out] matrix, the target and the bias have
    [d_out] entries. *)
Definition conforming (W : matrix) (b target : list R) : Prop :=
  rect W /\ length target = shape1 W /\ length b = shape1 W.

(** Torch unpacks a Python [int] into a 64-bit integer. *)
Definition int64 (z : Z) : bool := (- 2 ^ 63 <=? z) && (z <? 2 ^ 63).

Definition unpack_overflow : exn := RuntimeError "Overflow when unpacking long long".

(** A Python scalar that is assigned into a float tensor, or multiplied
    with one: an [int] of 64 bits, a [float] or a [bool]. *)
Definition py_real (v : pyval) : res R :=
  match v with
  | PInt z => if int64 z then Ok (IZR z) else Raise unpack_overflow
  | PFloat q => Ok (Q2R q)
  | PBool b => Ok (if b then 1%R else 0%R)
  | _ => Raise TypeError
  end.

(** An [int] as an index into a dimension of size [n]: negative indices
    count from the end.  (Sizes are 64-bit integers themselves, so that an
    index in range has been unpacked without overflow.) *)
Definition tensor_index (n : nat) (z : Z) : res nat :=
  match py_index n z with
  | Some k => Ok k
  | None => Raise (if int64 z then IndexError else unpack_overflow)
  end.

(** the elements a [for] loop iterates over (the keys of a dict in the
    order of the map, not of insertion) *)
Definition py_iter (v : pyval) : res (list pyval) :=
  match v with
  | PList l => Ok l
  | PStr s => Ok (map (fun c => PStr (String c EmptyString)) (list_ascii_of_string s))
  | PDict d => Ok (map (fun kv => PStr (fst kv)) (map_to_list d))
  | _ => Raise TypeError
  end.

(** [for ft_id, ft_scale in ...]: one element unpacked into two names *)
Definition unpack2 (item : pyval) : res (pyval * pyval) :=
  l ← py_iter item;
  match l with
  | [a; b] => Ok (a, b)
  | [] | [_] =>
      Raise (ValueError ("not enough values to unpack (expected 2, got "
                         ++ string_of_Z (Z.of_nat (length l)) ++ ")"))
  | _ => Raise (ValueError "too many values to unpack (expected 2)")
  end.

(** ** The outside world *)

(** A sparse autoencoder, as far as the script looks into it. *)
Record sae_model : Type := { W_enc : matrix; W_dec : matrix }.

(** A [LinearAdapter]: its weight [W] and bias [b]. *)
Record adapter : Type := { W : matrix; b : list R }.

(** One record of the summary ([result] in the source). *)
Record summary : Type := {
  s_path : string;
  s_method : string;
  s_steering_goal_name : pyval;
  max_product : Q;
  scale_at_max : Z
}.

(** The curves behind one chart ([graph_data] in the source). *)
Record graph_data : Type := {
  g_path : string;
  g_method : string;
  g_steering_goal_name : pyval;
  scales : list Z;
  avg_coherence : list Q;
  avg_score : list Q;
  product : list Q;
  individual_scores : list (list Q);
  individual_coherences : list (list Q);
  individual_products : list (list Q)
}.

(** What [json.dump] is given. *)
Inductive payload : Type :=
| Texts (all_texts : list (Z * list string))
| Summaries (results : list summary)
| Graphs (graph_data_list : list graph_data).

(** A chart: title and the three traces over the scales. *)
Record figure : Type := {
  title : string;
  xs : list Z;
  coherence_trace : list Q;
  score_trace : list Q;
  product_trace : list Q
}.

(** Every call that leaves the script, with how it ended ([None]: it
    returned); reads, the generator and the evaluator are logged with their
    reply. *)
Inductive event : Type :=
| EvReadJson (file : string) (reply : res pyval)
| EvFromPretrained (release sae_id : pyval) (out : option exn)
| EvHubDownload (repo_id filename : pyval) (out : option exn)
| EvNpLoad (file : string) (out : option exn)
| EvLoadStateDict (out : option exn)
| EvTorchLoad (file : string) (out : option exn)
| EvLoadActSteer (path : string) (out : option exn)
| EvActivationSteering (layer : pyval) (out : option exn)
| EvGenerate (steer : tensor) (hp prompt : pyval) (scale n_samples : Z)
    (reply : res (list string))
| EvEvaluate (texts : list string) (criteria : list pyval) (prompt : pyval)
    (reply : res (list pyval * list pyval))
| EvWriteJson (file : string) (data : payload) (out : option exn)
| EvWriteImage (file : string) (fig : figure) (out : option exn).

Definition history : Type := list event.

(** The oracles.  Each one sees the calls made so far, so that files may
    change and sampling need not repeat itself. *)
Record world : Type := {
  (* [open(file, 'r')] followed by [json.load] *)
  open_json : history -> string -> res pyval;
  (* [SAE.from_pretrained(release, sae_id, device='cpu')], first component *)
  from_pretrained : history -> pyval -> pyval -> res sae_model;
  (* [normalise_decoder(sae)], which rescales the model in place *)
  normalise_decoder : sae_model -> sae_model;
  (* [hf_hub_download(repo_id, filename, force_download=False)] *)
  hf_hub_download : history -> pyval -> pyval -> res string;
  (* [np.load(file)] *)
  np_load : history -> string -> res (gmap string matrix);
  (* [JumpReLUSAE(d0, d1)], [load_state_dict(params)] and [cpu()] *)
  jumprelu_load : history -> nat -> nat -> gmap string matrix -> res sae_model;
  (* [torch.load(file)]: the saved [W] and [b] *)
  torch_load : history -> string -> res adapter;
  (* [torch.linalg.pinv] *)
  linalg_pinv : matrix -> matrix;
  (* torch's advanced indexing.  [M[i]] for an index [i] that is no number;
     the entries of a vector of [n] entries that [t[i] = x] addresses when
     [i] is a string, a list or a dict *)
  advanced_getitem : matrix -> pyval -> res (list R);
  advanced_index : nat -> pyval -> res (list nat);
  (* [load_act_steer(path)]: positive, negative, validation examples, layer *)
  load_act_steer : history -> string -> res (pyval * pyval * pyval * pyval);
  (* [get_activation_steering(model, pos, neg, device, layer)] *)
  get_activation_steering : history -> pyval -> pyval -> pyval -> res tensor;
  (* [steer_model(model, steer, hp, prompt, scale, n_samples)] *)
  steer_model : history -> tensor -> pyval -> pyval -> Z -> Z -> res (list string);
  (* [multi_criterion_evaluation(texts, criteria, prompt, print_errors=True)] *)
  multi_criterion_evaluation :
    history -> list string -> list pyval -> pyval -> res (list pyval * list pyval);
  (* [open(file, 'w')] followed by [json.dump] *)
  write_json : history -> string -> payload -> res unit;
  (* [fig.write_image(file, scale=2)] *)
  write_image : history -> string -> figure -> res unit;
  (* [str()] of a float or a container *)
  py_repr : pyval -> string
}.

(** ** The monad of the script: a result and the trace so far *)

Definition M (A : Type) : Type := history -> res A * history.

#[global] Instance M_ret : MRet M := fun _ a h => (Ok a, h).
#[global] Instance M_bind : MBind M := fun _ _ k m h =>
  match m h with
  | (Ok a, h') => k a h'
  | (Raise e, h') => (Raise e, h')
  end.

(** a pure step that may raise *)
Definition lift {A} (r : res A) : M A := fun h => (r, h).

Definition outcome {A} (r : res A) : option exn :=
  match r with
  | Ok _ => None
  | Raise e => Some e
  end.

(** a call to the world, logged with its reply *)
Definition call {A} (oracle : history -> res A) (ev : res A -> event) : M A :=
  fun h => let r := oracle h in (r, (h ++ [ev r])%list).

(** the log entry of a call of which only the outcome is kept *)
Definition logged {A} (ev : option exn -> event) : res A -> event :=
  fun r => ev (outcome r).

(** [f"{v}"] *)
Definition py_str (w : world) (v : pyval) : string :=
  match v with
  | PNone => "None"
  | PBool true => "True"
  | PBool false => "False"
  | PInt z => string_of_Z z
  | PStr s => s
  | _ => py_repr w v
  end.

(** a [for] loop over a list, threading the variables it updates *)
Fixpoint for_each {A S} (l : list A) (body : A -> S -> M S) (s : S) : M S :=
  match l with
  | [] => mret s
  | x :: l' => s' ← body x s; for_each l' body s'
  end.

(** the same for a loop without outside calls *)
Fixpoint for_res {A S} (l : list A) (body : A -> S -> res S) (s : S) : res S :=
  match l with
  | [] => Ok s
  | x :: l' => s' ← body x s; for_res l' body s'
  end.

(** a list comprehension whose element expression may raise *)
Fixpoint map_res {A B} (f : A -> res B) (l : list A) : res (list B) :=
  match l with
  | [] => Ok []
  | x :: l' => y ← f x; ys ← map_res f l'; Ok (y :: ys)
  end.

(** ** Scoring arithmetic *)

(** [(item - 1) / 9] *)
Definition rescale (item : Q) : Q := ((item - 1) / 9)%Q.

(** [sum(l) / len(l)] *)
Definition py_mean (l : list Q) : res Q :=
  match l with
  | [] => Raise ZeroDivisionError
  | _ :: _ => Ok (fold_left Qplus l 0%Q / inject_Z (Z.of_nat (length l)))%Q
  end.

(** [max(l)]: the first of the largest elements *)
Definition py_max (l : list Q) : res Q :=
  match l with
  | [] => Raise (ValueError "max() arg is an empty sequence")
  | x :: l' => Ok (fold_left (fun cur y => if Qle_bool y cur then cur else y) l' x)
  end.

(** [l.index(x)]: the first position holding a value equal to [x] *)
Fixpoint py_list_index (l : list Q) (x : Q) : res nat :=
  match l with
  | [] => Raise (ValueError "x not in list")
  | y :: l' => if Qeq_bool y x then Ok 0%nat else i ← py_list_index l' x; Ok (S i)
  end.

(** [l[i]] for an index known to be a natural number *)
Definition list_at {A} (l : list A) (i : nat) : res A :=
  match nth_error l i with
  | Some x => Ok x
  | None => Raise IndexError
  end.

(** ** The loaders *)

(** Lines 73-82. *)
Definition single_step_steer (adapter : adapter) (target : list R) (bias_scale : R)
  : tensor :=
  let steer_vec := matvec (W adapter) target in
  tensor_bind (vdiv steer_vec (norm steer_vec)) (fun steer_vec =>
  let bias_vec := matvec (W adapter) (b adapter) in
  tensor_bind (vdiv bias_vec (norm bias_vec)) (fun bias_vec =>
  let bias_vec := vscale bias_scale bias_vec in
  let steer := vsub steer_vec bias_vec in
  vdiv steer (norm steer))).

(** [LinearAdapter(d_in, d_out).load_state_dict(sd)]: the saved tensors must
    have the shapes of the fresh adapter. *)
Definition load_state_dict (d_in d_out : nat) (sd : adapter) : res adapter :=
  if Nat.eqb (length (W sd)) d_in
     && forallb (fun row => Nat.eqb (length row) d_out) (W sd)
     && Nat.eqb (length (b sd)) d_out
  then Ok sd
  else Raise (RuntimeError "size mismatch").

(** [M[i]] for a value [i] read from the configuration.  An [int]
    selects a row.  A [float] is no index.  Any other value selects a tensor
    of a shape of its own ([True] and [None] the whole matrix, with one
    dimension more); the model has vectors only, and leaves to the world with
    which row, if any, the loader goes on. *)
Definition row_at (w : world) (M : matrix) (i : pyval) : res (list R) :=
  match i with
  | PInt z => k ← tensor_index (length M) z; list_at M k
  | PFloat _ => Raise IndexError
  | _ => advanced_getitem w M i
  end.

(** [t[i] = x] on a one-dimensional tensor.  The value is converted first.
    An [int] addresses one entry, [True] and [None] address all of them
    and [False] none; a [float] is no index. *)
Definition set_at (w : world) (t : list R) (i : pyval) (x : pyval) : res (list R) :=
  r ← py_real x;
  match i with
  | PInt z => k ← tensor_index (length t) z; Ok (<[k := r]> t)
  | PBool true | PNone => Ok (map (fun _ => r) t)
  | PBool false => Ok t
  | PFloat _ => Raise IndexError
  | _ => ks ← advanced_index w (length t) i;
         Ok (fold_left (fun t k => <[k := r]> t) ks t)
  end.

(** [target = zeros(n); for ft_id, ft_scale in features: target[ft_id] = ft_scale] *)
Definition build_target (w : world) (n : nat) (features : list pyval) : res (list R) :=
  for_res features
    (fun item target => '(ft_id, ft_scale) ← unpack2 item; set_at w target ft_id ft_scale)
    (zeros n).

(** [vectors.append(W_dec[ft_id] * ft_scale)] for each feature *)
Definition feature_rows (w : world) (W_dec : matrix) (features : list pyval)
  : res (list (list R)) :=
  for_res features
    (fun item vectors =>
       '(ft_id, ft_scale) ← unpack2 item;
       row ← row_at w W_dec ft_id;
       c ← py_real ft_scale;
       Ok (vectors ++ [vscale c row])%list)
    [].

(** [torch.stack(vectors, dim=0).sum(dim=0)] *)
Definition stack_sum (vectors : list (list R)) : res (list R) :=
  match vectors with
  | [] => Raise (RuntimeError "stack expects a non-empty TensorList")
  | v :: vs => Ok (fold_left vadd vs v)
  end.

Section Script.

Variable w : world.

(** Lines 84-91. *)
Definition pinverse_steer (adapter : adapter) (target : list R) (target_scale : R)
  : tensor :=
  tensor_bind (vdiv target (norm target)) (fun target =>
  let target := vscale target_scale target in
  let W_pinv := linalg_pinv w (W adapter) in
  let x_optimal := vecmat (vsub target (b adapter)) W_pinv in
  Fin x_optimal).

Definition read_json (file : string) : M pyval :=
  call (fun h => open_json w h file) (EvReadJson file).

(** Lines 25-49. *)
Definition load_sae_model (config : pyval) : M sae_model :=
  sae_load_method ← lift (py_get config "sae_load_method" (PStr "saelens"));
  if py_eq_str sae_load_method "saelens" then
    release ← lift (py_getitem config "sae");
    sae_id ← lift (py_getitem config "layer");
    sae ← call (fun h => from_pretrained w h release sae_id)
               (logged (EvFromPretrained release sae_id));
    mret (normalise_decoder w sae)
  else if py_eq_str sae_load_method "gemmascope" then
    repo_id ← lift (py_getitem config "repo_id");
    filename ← lift (py_getitem config "filename");
    path_to_params ← call (fun h => hf_hub_download w h repo_id filename)
                          (logged (EvHubDownload repo_id filename));
    params ← call (fun h => np_load w h path_to_params) (logged (EvNpLoad path_to_params));
    W_enc ← lift (match params !! "W_enc" with
                  | Some m => Ok m
                  | None => Raise (KeyError "W_enc is not a file in the archive")
                  end);
    call (fun h => jumprelu_load w h (shape0 W_enc) (shape1 W_enc) params)
         (logged EvLoadStateDict)
  else
    lift (Raise (ValueError ("Unknown sae_load_method: " ++ py_str w sae_load_method))).

(** Lines 52-70. *)
Definition load_sae_steer (path : string) : M (tensor * pyval * pyval) :=
  config ← read_json (path_join path "feature_steer.json");
  sae ← load_sae_model config;
  features ← lift (py_getitem config "features");
  features ← lift (py_iter features);
  vectors ← lift (feature_rows w (W_dec sae) features);
  vec ← lift (stack_sum vectors);
  let vec := normalise (Fin vec) in
  hp ← lift (py_getitem config "hp");
  layer ← lift (py_getitem config "layer");
  mret (vec, hp, layer).

(** The part the two adapter loaders share: lines 95-107 and 113-125. *)
Definition load_adapter_and_target (path : string) (big_model : bool)
  : M (pyval * pyval * adapter * list R) :=
  config ← read_json (path_join path "optimised_steer.json");
  layer ← lift (py_getitem config "layer");
  sae ← load_sae_model config;
  let file := if big_model
              then "adapter_9b_layer_" ++ py_str w layer ++ ".pt"
              else "adapter_layer_" ++ py_str w layer ++ ".pt" in
  sd ← call (fun h => torch_load w h file) (logged (EvTorchLoad file));
  adapter ← lift (load_state_dict (shape0 (W_enc sae)) (shape1 (W_enc sae)) sd);
  features ← lift (py_getitem config "features");
  features ← lift (py_iter features);
  target ← lift (build_target w (shape1 (W adapter)) features);
  mret (config, layer, adapter, target).

(** Lines 94-110. *)
Definition load_optimised_steer (path : string) (big_model : bool)
  : M (tensor * pyval * pyval) :=
  '(config, layer, adapter, target) ← load_adapter_and_target path big_model;
  let vec := single_step_steer adapter target 1%R in
  hp ← lift (py_getitem config "hp");
  mret (vec, hp, layer).

(** Lines 112-128. *)
Definition load_pinv_steer (path : string) (big_model : bool)
  : M (tensor * pyval * pyval) :=
  '(config, layer, adapter, target) ← load_adapter_and_target path big_model;
  let vec := pinverse_steer adapter target 1%R in
  hp ← lift (py_getitem config "hp");
  mret (vec, hp, layer).

End Script.

(** ** The scale sweep *)

(** The lists the loop of [analyse_steer] appends to. *)
Record sweep_lists : Type := {
  l_all_texts : list (Z * list string);
  l_avg_score : list Q;
  l_avg_coh : list Q;
  l_individual_scores : list (list Q);
  l_individual_coherences : list (list Q);
  l_individual_products : list (list Q)
}.

Definition empty_lists : sweep_lists :=
  {| l_all_texts := []; l_avg_score := []; l_avg_coh := [];
     l_individual_scores := []; l_individual_coherences := [];
     l_individual_products := [] |}.

(** The true division of two [int]s raises when the quotient, rounded to
    a float, is 2^1024 or more in absolute value. *)
Definition float_overflow : Z := Eval cbv in 2 ^ 1024 - 2 ^ 970.

(** [(item - 1) / 9] on a rating: for an [int] the difference is exact
    and the division may overflow. *)
Definition py_rescale (item : pyval) : res Q :=
  x ← py_number item;
  match item with
  | PInt z => if 9 * float_overflow <=? Z.abs (z - 1) then Raise OverflowError
              else Ok (rescale x)
  | _ => Ok (rescale x)
  end.

(** Lines 210-213 for one of the two rating lists:
    [[item['score'] for item in xs]] and then [[(item - 1) / 9 for ...]]. *)
Definition rescale_ratings (ratings : list pyval) : res (list Q) :=
  raw ← map_res (fun item => py_getitem item "score") ratings;
  map_res py_rescale raw.

Section Analysis.

Variable w : world.

(** the module-level [default_prompt] *)
Variable default_prompt : option pyval.

(** Lines 161-175. *)
Definition plot (path : string) (coherence score product : list Q) (scales : list Z)
    (method : string) (steering_goal_name : pyval) : M unit :=
  let fig := {| title := "Steering Analysis for " ++ py_str w steering_goal_name
                          ++ " (" ++ method ++ ")";
                xs := scales;
                coherence_trace := coherence;
                score_trace := score;
                product_trace := product |} in
  safe_name ← lift (match steering_goal_name with
                    | PStr s => Ok (replace_spaces s)
                    | _ => Raise AttributeError
                    end);
  let file := path_join path ("scores_" ++ safe_name ++ "_" ++ method ++ ".png") in
  call (fun h => write_image w h file fig) (logged (EvWriteImage file fig)).

(** The body of the loop, lines 200-223. *)
Definition sweep_step (steer : tensor) (hp prompt criteria : pyval)
    (scale : Z) (acc : sweep_lists) : M sweep_lists :=
  texts ← call (fun h => steer_model w h steer hp prompt scale 256)
               (EvGenerate steer hp prompt scale 256);
  let all_texts := (l_all_texts acc ++ [(scale, texts)])%list in
  c0 ← lift (py_getitem_int criteria 0);
  c_score ← lift (py_getitem c0 "score");
  c0 ← lift (py_getitem_int criteria 0);
  c_coherence ← lift (py_getitem c0 "coherence");
  '(score, coherence) ←
     call (fun h => multi_criterion_evaluation w h texts [c_score; c_coherence] prompt)
          (EvEvaluate texts [c_score; c_coherence] prompt);
  score ← lift (rescale_ratings score);
  coherence ← lift (rescale_ratings coherence);
  let products := zip_with Qmult score coherence in
  mean_score ← lift (py_mean score);
  mean_coh ← lift (py_mean coherence);
  mret {| l_all_texts := all_texts;
          l_avg_score := l_avg_score acc ++ [mean_score];
          l_avg_coh := l_avg_coh acc ++ [mean_coh];
          l_individual_scores := l_individual_scores acc ++ [score];
          l_individual_coherences := l_individual_coherences acc ++ [coherence];
          l_individual_products := l_individual_products acc ++ [products] |}%list.

(** Lines 178-261. *)
Definition analyse_steer (steer : tensor) (hp : pyval) (path : string)
    (method : string) : M (summary * graph_data) :=
  let scales := py_range 0 320 20 in
  criteria ← read_json w (path_join path "criteria.json");
  prompt ← match default_prompt with
           | Some p => mret p
           | None =>
               prompts ← read_json w (path_join path "prompts.json");
               lift (py_getitem_int prompts 0)
           end;
  c0 ← lift (py_getitem_int criteria 0);
  steering_goal_name ← lift (py_get c0 "name" (PStr "Unknown"));
  acc ← for_each scales (sweep_step steer hp prompt criteria) empty_lists;
  let avg_score := l_avg_score acc in
  let avg_coh := l_avg_coh acc in
  let product := zip_with Qmult avg_coh avg_score in
  max_product ← lift (py_max product);
  max_index ← lift (py_list_index product max_product);
  max_scale ← lift (list_at scales max_index);
  let result := {| s_path := path;
                   s_method := method;
                   s_steering_goal_name := steering_goal_name;
                   max_product := max_product;
                   scale_at_max := max_scale |} in
  let texts_file := path_join path ("generated_texts_" ++ method ++ ".json") in
  _ ← call (fun h => write_json w h texts_file (Texts (l_all_texts acc)))
           (logged (EvWriteJson texts_file (Texts (l_all_texts acc))));
  _ ← plot path avg_coh avg_score product scales method steering_goal_name;
  let graph_data := {| g_path := path;
                       g_method := method;
                       g_steering_goal_name := steering_goal_name;
                       scales := scales;
                       avg_coherence := avg_coh;
                       avg_score := avg_score;
                       product := product;
                       individual_scores := l_individual_scores acc;
                       individual_coherences := l_individual_coherences acc;
                       individual_products := l_individual_products acc |} in
  mret (result, graph_data).

(** ** The sweep over configurations, lines 278-367 *)

(** The method tags of the four blocks of the loop body. *)
Inductive method : Type := ActSteer | SAE | OptimisedSteer | PinverseSteer.

Definition method_tag (m : method) : string :=
  match m with
  | ActSteer => "ActSteer"
  | SAE => "SAE"
  | OptimisedSteer => "OptimisedSteer"
  | PinverseSteer => "PinverseSteer"
  end.

(** Lines 324-327. *)
Definition act_steer (path : string) : M (tensor * pyval) :=
  '(pos_examples, neg_examples, val_examples, layer) ←
     call (fun h => load_act_steer w h path) (logged (EvLoadActSteer path));
  steer ← call (fun h => get_activation_steering w h pos_examples neg_examples layer)
               (logged (EvActivationSteering layer));
  let steer := normalise steer in
  let hp := PStr ("blocks." ++ py_str w layer ++ ".hook_resid_post") in
  mret (steer, hp).

(** How each block gets its vector and hook point. *)
Definition load_steer (big_model : bool) (m : method) (path : string)
  : M (tensor * pyval) :=
  match m with
  | ActSteer => act_steer path
  | SAE => '(steer, hp, layer) ← load_sae_steer w path; mret (steer, hp)
  | OptimisedSteer =>
      '(steer, hp, layer) ← load_optimised_steer w path big_model; mret (steer, hp)
  | PinverseSteer =>
      '(steer, hp, layer) ← load_pinv_steer w path big_model; mret (steer, hp)
  end.

(** One block: load, analyse, append to the two run-wide lists. *)
Definition run_method (big_model : bool) (path : string) (m : method)
    (acc : list summary * list graph_data) : M (list summary * list graph_data) :=
  '(steer, hp) ← load_steer big_model m path;
  '(result, graph_data) ← analyse_steer steer hp path (method_tag m);
  mret (fst acc ++ [result], snd acc ++ [graph_data])%list.

Definition methods : list method := [ActSteer; SAE; OptimisedSteer; PinverseSteer].

Definition paths (big_model : bool) : list string :=
  if big_model then
    [ "steer_cfgs/gemma2-9b/anger";
      "steer_cfgs/gemma2-9b/christian_evangelist";
      "steer_cfgs/gemma2-9b/conspiracy";
      "steer_cfgs/gemma2-9b/french";
      "steer_cfgs/gemma2-9b/london";
      "steer_cfgs/gemma2-9b/love";
      "steer_cfgs/gemma2-9b/praise";
      "steer_cfgs/gemma2-9b/want_to_die";
      "steer_cfgs/gemma2-9b/wedding" ]
  else
    [ "steer_cfgs/gemma2/anger";
      "steer_cfgs/gemma2/christian_evangelist";
      "steer_cfgs/gemma2/conspiracy";
      "steer_cfgs/gemma2/french";
      "steer_cfgs/gemma2/london";
      "steer_cfgs/gemma2/love";
      "steer_cfgs/gemma2/praise";
      "steer_cfgs/gemma2/want_to_die";
      "steer_cfgs/gemma2/wedding" ].

Definition model_name (big_model : bool) : string :=
  if big_model then "gemma-2-9b" else "gemma-2-2b".

(** The loop over [paths] and the two run-wide files. *)
Definition sweep_over (big_model : bool) (paths : list string) : M unit :=
  '(results, graph_data_list) ←
     for_each paths
       (fun path acc => for_each methods (run_method big_model path) acc)
       ([], []);
  let results_file := "steering_results_" ++ model_name big_model ++ ".json" in
  _ ← call (fun h => write_json w h results_file (Summaries results))
           (logged (EvWriteJson results_file (Summaries results)));
  let graphs_file := "graph_data_all_methods_" ++ model_name big_model ++ ".json" in
  call (fun h => write_json w h graphs_file (Graphs graph_data_list))
       (logged (EvWriteJson graphs_file (Graphs graph_data_list))).

Definition sweep (big_model : bool) : M unit := sweep_over big_model (paths big_model).

End Analysis.

(** The script as it stands: [big_model = True], [default_prompt = "I think"]. *)
Definition main (w : world) : M unit := sweep w (Some (PStr "I think")) true.

(** ** Reading a trace *)

(** the exception a logged call ended with *)
Definition failed (e : event) : option exn :=
  match e with
  | EvFromPretrained _ _ out | EvHubDownload _ _ out
  | EvNpLoad _ out | EvLoadStateDict out | EvTorchLoad _ out
  | EvLoadActSteer _ out | EvActivationSteering _ out
  | EvWriteJson _ _ out | EvWriteImage _ _ out => out
  | EvReadJson _ reply => outcome reply
  | EvGenerate _ _ _ _ _ reply => outcome reply
  | EvEvaluate _ _ _ reply => outcome reply
  end.

(** an output file that could not be written *)
Definition failed_write (e : event) : option exn :=
  match e with
  | EvWriteJson _ _ out | EvWriteImage _ _ out => out
  | _ => None
  end.

(** the generation requests of a trace: scale, batch size and prompt *)
Definition generations (t : list event) : list (Z * Z * pyval) :=
  flat_map (fun e => match e with
                     | EvGenerate _ _ prompt scale n _ => [(scale, n, prompt)]
                     | _ => []
                     end) t.

(** the replies of the evaluator *)
Definition evaluations (t : list event) : list (list pyval * list pyval) :=
  flat_map (fun e => match e with
                     | EvEvaluate _ _ _ (Ok reply) => [reply]
                     | _ => []
                     end) t.

(** the JSON files opened for reading *)
Definition json_reads (t : list event) : list string :=
  flat_map (fun e => match e with EvReadJson file _ => [file] | _ => [] end) t.

(** the configurations whose processing began (each begins with
    [load_act_steer(path)]) *)
Definition configs_started (t : list event) : list string :=
  flat_map (fun e => match e with EvLoadActSteer path _ => [path] | _ => [] end) t.

(** A run of [m] from any history appends a trace [t] to it, and the
    result [r] and [t] satisfy [Q]. *)
Definition traced {A} (m : M A) (Q : res A -> list event -> Prop) : Prop :=
  forall h, exists t, snd (m h) = (h ++ t)%list /\ Q (fst (m h)) t.

(** No logged call of [t] failed. *)
Definition clean (t : list event) : Prop := Forall (fun e => failed e = None) t.

(** Exceptions are never caught: a run that returns made no failing call,
    and a failing call is the last thing a run does. *)
Definition fail_stop {A} (r : res A) (t : list event) : Prop :=
  match r with
  | Ok _ => clean t
  | Raise x =>
      clean t \/ exists t1 e, t = (t1 ++ [e])%list /\ clean t1 /\ failed e = Some x
  end.

(** Every logged call satisfies [P], however the run ends. *)
Definition every (P : event -> Prop) (A : Type) (r : res A) (t : list event) : Prop :=
  Forall P t.

(** After the prompt is chosen no file is read, and every request carries
    the prompt. *)
Definition uses_prompt (prompt : pyval) (e : event) : Prop :=
  match e with
  | EvReadJson _ _ => False
  | EvGenerate _ _ p _ _ _ => p = prompt
  | EvEvaluate _ _ p _ => p = prompt
  | _ => True
  end.

(** ** What a completed sweep consisted of *)

(** One completed iteration of the loop of [analyse_steer]. *)
Record iteration : Type := {
  it_scale : Z;
  it_texts : list string;
  it_rubrics : list pyval;
  it_reply_score : list pyval;
  it_reply_coherence : list pyval;
  it_score : list Q;
  it_coherence : list Q;
  it_mean_score : Q;
  it_mean_coherence : Q
}.

(** the numbers of an iteration come from the evaluator's reply *)
Definition iteration_ok (it : iteration) : Prop :=
  rescale_ratings (it_reply_score it) = Ok (it_score it) /\
  rescale_ratings (it_reply_coherence it) = Ok (it_coherence it) /\
  py_mean (it_score it) = Ok (it_mean_score it) /\
  py_mean (it_coherence it) = Ok (it_mean_coherence it).

(** the two calls of an iteration *)
Definition iteration_events (steer : tensor) (hp prompt : pyval) (it : iteration)
  : list event :=
  [EvGenerate steer hp prompt (it_scale it) 256 (Ok (it_texts it));
   EvEvaluate (it_texts it) (it_rubrics it) prompt
              (Ok (it_reply_score it, it_reply_coherence it))].

(** the six lists after some more iterations *)
Definition extend (acc : sweep_lists) (its : list iteration) : sweep_lists :=
  {| l_all_texts := l_all_texts acc ++ map (fun it => (it_scale it, it_texts it)) its;
     l_avg_score := l_avg_score acc ++ map it_mean_score its;
     l_avg_coh := l_avg_coh acc ++ map it_mean_coherence its;
     l_individual_scores := l_individual_scores acc ++ map it_score its;
     l_individual_coherences := l_individual_coherences acc ++ map it_coherence its;
     l_individual_products :=
       l_individual_products acc
       ++ map (fun it => zip_with Qmult (it_score it) (it_coherence it)) its |}%list.

(** ** Reference definitions, in the words of the spec *)

(** The raw rubric scores of a list of ratings. *)
Definition raw_scores (ratings : list pyval) : res (list Q) :=
  map_res (fun item => v ← py_getitem item "score"; py_number v) ratings.

(** "Any I/O failure while writing output ... does not abort the remaining
    sweep over other configurations": when nothing but writes fails, every
    configuration is processed. *)
Definition only_writes_fail (t : list event) : Prop :=
  Forall (fun e => failed e = None \/ failed_write e <> None) t.

Definition sweep_survives_write_failures : Prop :=
  forall (w : world) (default_prompt : option pyval) (big_model : bool),
    only_writes_fail (snd (sweep w default_prompt big_model [])) ->
    configs_started (snd (sweep w default_prompt big_model [])) = paths big_model.








(** What follows the choice of the prompt: no file is read any more and
    every request to the generator and to the evaluator carries the prompt;
    the first request, for scale 0, is made as soon as the goal name has
    been looked up; a run that completes has asked the generator once per
    scale. *)
Definition prompt_used {A} (steer : tensor) (hp criteria prompt : pyval) (r : res A)
    (t : list event) : Prop :=
  Forall (uses_prompt prompt) t /\
  (forall c0 name,
     py_getitem_int criteria 0 = Ok c0 -> py_get c0 "name" (PStr "Unknown") = Ok name ->
     exists reply tl, t = EvGenerate steer hp prompt 0 256 reply :: tl) /\
  (forall a, r = Ok a ->
     generations t = map (fun scale => (scale, 256, prompt)) (py_range 0 320 20)).

(** [i] is the first index at which [l] is largest, and [m] its entry there. *)
Definition first_argmax (l : list Q) (i : nat) (m : Q) : Prop :=
  nth_error l i = Some m /\
  (forall j x, nth_error l j = Some x -> (x <= m)%Q) /\
  (forall j x, (j < i)%nat -> nth_error l j = Some x -> (x < m)%Q).

(** ** Concrete worlds for the examples *)

Definition rating (z : Z) : pyval := PDict {[ "score" := PInt z ]}.

Definition demo_criteria : pyval :=
  PList [PDict (<["name" := PStr "deep anger"]>
               (<["score" := PStr "rubric for anger"]>
                {[ "coherence" := PStr "rubric for fluency" ]}))].

Definition last_scale (h : history) : Z :=
  List.last (map fst (map fst (generations h))) 0.

(** Pseudo-inverse of a 1 x 1 matrix. *)
Definition pinv1 (A : matrix) : matrix :=
  match A with
  | [[x]] => [[(/ x)%R]]
  | _ => A
  end.

(** A world with one configuration directory [cfg]: two completions per
    batch, rated so that score grows and coherence falls with the scale. *)
Definition demo_world : world := {|
  open_json := fun _ file =>
    if String.eqb file "cfg/criteria.json" then Ok demo_criteria
    else if String.eqb file "cfg/prompts.json" then Ok (PList [PStr "Surprisingly,"])
    else Raise (FileNotFoundError file);
  from_pretrained := fun _ _ _ => Ok {| W_enc := [[]]; W_dec := [] |};
  normalise_decoder := fun sae => sae;
  hf_hub_download := fun _ _ _ => Raise (ExternalError "hf_hub_download");
  np_load := fun _ file => Raise (FileNotFoundError file);
  jumprelu_load := fun _ _ _ _ => Raise (ExternalError "load_state_dict");
  torch_load := fun _ file => Raise (FileNotFoundError file);
  linalg_pinv := pinv1;
  advanced_getitem := fun _ _ => Raise IndexError;
  advanced_index := fun _ _ => Raise IndexError;
  load_act_steer := fun _ _ => Ok (PNone, PNone, PNone, PInt 12);
  get_activation_steering := fun _ _ _ _ => Ok NonFinite;
  steer_model := fun _ _ _ _ _ _ => Ok ["one"; "two"];
  multi_criterion_evaluation := fun h _ _ _ =>
    let k := last_scale h / 40 in
    Ok ([rating (1 + k); rating 3], [rating (10 - k); rating 10]);
  write_json := fun _ _ _ => Ok ();
  write_image := fun _ _ _ => Ok ();
  py_repr := fun _ => "?"
|}.

(** The same world with a disk that refuses the generated texts, and
    configuration files in every directory. *)
Definition full_disk_world : world := {|
  open_json := fun _ _ => Ok demo_criteria;
  from_pretrained := from_pretrained demo_world;
  normalise_decoder := normalise_decoder demo_world;
  hf_hub_download := hf_hub_download demo_world;
  np_load := np_load demo_world;
  jumprelu_load := jumprelu_load demo_world;
  torch_load := torch_load demo_world;
  linalg_pinv := linalg_pinv demo_world;
  advanced_getitem := advanced_getitem demo_world;
  advanced_index := advanced_index demo_world;
  load_act_steer := load_act_steer demo_world;
  get_activation_steering := get_activation_steering demo_world;
  steer_model := steer_model demo_world;
  multi_criterion_evaluation := multi_criterion_evaluation demo_world;
  write_json := fun _ file _ => Raise (OSError file);
  write_image := write_image demo_world;
  py_repr := py_repr demo_world
|}.

(** A world whose activation-difference direction is (3, 4). *)
Definition act_world : world := {|
  open_json := open_json demo_world;
  from_pretrained := from_pretrained demo_world;
  normalise_decoder := normalise_decoder demo_world;
  hf_hub_download := hf_hub_download demo_world;
  np_load := np_load demo_world;
  jumprelu_load := jumprelu_load demo_world;
  torch_load := torch_load demo_world;
  linalg_pinv := linalg_pinv demo_world;
  advanced_getitem := advanced_getitem demo_world;
  advanced_index := advanced_index demo_world;
  load_act_steer := load_act_steer demo_world;
  get_activation_steering := fun _ _ _ _ => Ok (Fin [3%R; 4%R]);
  steer_model := steer_model demo_world;
  multi_criterion_evaluation := multi_criterion_evaluation demo_world;
  write_json := write_json demo_world;
  write_image := write_image demo_world;
  py_repr := py_repr demo_world
|}.

(** A world with a one-feature autoencoder and a saved adapter of weight
    (2) and bias (0); the configuration asks for feature 0 at scale 2. *)
Definition adapter_two : adapter := {| W := [[2%R]]; b := [0%R] |}.

Definition adapter_config : pyval :=
  PDict (<["sae" := PStr "gemma-scope-9b-pt-res"]>
        (<["layer" := PInt 20]>
        (<["hp" := PStr "blocks.20.hook_resid_post"]>
         {[ "features" := PList [PList [PInt 0; PInt 2]] ]}))).

Definition adapter_world : world := {|
  open_json := fun _ _ => Ok adapter_config;
  from_pretrained := fun _ _ _ => Ok {| W_enc := [[1%R]]; W_dec := [[1%R]] |};
  normalise_decoder := normalise_decoder demo_world;
  hf_hub_download := hf_hub_download demo_world;
  np_load := np_load demo_world;
  jumprelu_load := jumprelu_load demo_world;
  torch_load := fun _ _ => Ok adapter_two;
  linalg_pinv := pinv1;
  advanced_getitem := fun _ _ => Raise IndexError;
  advanced_index := fun _ _ => Raise IndexError;
  load_act_steer := load_act_steer demo_world;
  get_activation_steering := get_activation_steering demo_world;
  steer_model := steer_model demo_world;
  multi_criterion_evaluation := multi_criterion_evaluation demo_world;
  write_json := write_json demo_world;
  write_image := write_image demo_world;
  py_repr := py_repr demo_world
|}.

(** ** The rotation loader, lines 130-158

    The sweep does not call it.  Its two weight files hold a matrix and a
    vector, so that their [torch.load] is given apart from the world. *)

Section Rotation.

Variable w : world.

(** [torch.load] of the rotation matrix and of the correction bias *)
Variable load_matrix : history -> string -> res matrix.
Variable load_vector : history -> string -> res (list R).

(** [R.T @ vec]: a non-finite [vec] makes every entry of the product
    non-finite, if there is one. *)
Definition rotate (R : matrix) (vec : tensor) : tensor :=
  match vec with
  | Fin v => Fin (matvec (transpose R) v)
  | NonFinite => if Nat.eqb (shape1 R) 0 then Fin [] else NonFinite
  end.

Definition load_rotation_steer (path : string) : M (tensor * pyval * pyval) :=
  config ← read_json w (path_join path "optimised_steer.json");
  layer ← lift (py_getitem config "layer");
  hp ← lift (py_getitem config "hp");
  sae ← load_sae_model w config;
  let r_file := "R_dec_layer_" ++ py_str w layer ++ ".pt" in
  R ← call (fun h => load_matrix h r_file) (logged (EvTorchLoad r_file));
  let b_file := "correction_bias_layer_" ++ py_str w layer ++ ".pt" in
  b ← call (fun h => load_vector h b_file) (logged (EvTorchLoad b_file));
  features ← lift (py_getitem config "features");
  features ← lift (py_iter features);
  vectors ← lift (feature_rows w (W_dec sae) features);
  vec ← lift (stack_sum vectors);
  let vec := normalise (Fin vec) in
  let steer := rotate R vec in
  let steer := normalise steer in
  let steer := tensor_bind steer (fun s => Fin (vsub s b)) in
  let steer := normalise steer in
  mret (steer, hp, layer).

End Rotation.

(** ** More readings of a trace *)

(** the scales whose batch was generated *)
Definition generated_scales (t : list event) : list Z :=
  flat_map (fun e => match e with
                     | EvGenerate _ _ _ scale _ (Ok _) => [scale]
                     | _ => []
                     end) t.

(** the output files written, images included *)
Definition is_write (e : event) : bool :=
  match e with
  | EvWriteJson _ _ _ | EvWriteImage _ _ _ => true
  | _ => false
  end.

(** ** More worlds for the examples *)

(** The configuration of [adapter_world] without any feature. *)
Definition empty_features_config : pyval :=
  PDict (<["sae" := PStr "gemma-scope-9b-pt-res"]>
        (<["layer" := PInt 20]>
        (<["hp" := PStr "blocks.20.hook_resid_post"]>
         {[ "features" := PList [] ]}))).

Definition empty_features_world : world := {|
  open_json := fun _ _ => Ok empty_features_config;
  from_pretrained := from_pretrained adapter_world;
  normalise_decoder := normalise_decoder adapter_world;
  hf_hub_download := hf_hub_download adapter_world;
  np_load := np_load adapter_world;
  jumprelu_load := jumprelu_load adapter_world;
  torch_load := torch_load adapter_world;
  linalg_pinv := linalg_pinv adapter_world;
  advanced_getitem := advanced_getitem adapter_world;
  advanced_index := advanced_index adapter_world;
  load_act_steer := load_act_steer adapter_world;
  get_activation_steering := get_activation_steering adapter_world;
  steer_model := steer_model adapter_world;
  multi_criterion_evaluation := multi_criterion_evaluation adapter_world;
  write_json := write_json adapter_world;
  write_image := write_image adapter_world;
  py_repr := py_repr adapter_world
|}.

(** The demonstration world with an evaluator that rates no sample for
    the score rubric. *)
Definition no_ratings_world : world := {|
  open_json := open_json demo_world;
  from_pretrained := from_pretrained demo_world;
  normalise_decoder := normalise_decoder demo_world;
  hf_hub_download := hf_hub_download demo_world;
  np_load := np_load demo_world;
  jumprelu_load := jumprelu_load demo_world;
  torch_load := torch_load demo_world;
  linalg_pinv := linalg_pinv demo_world;
  advanced_getitem := advanced_getitem demo_world;
  advanced_index := advanced_index demo_world;
  load_act_steer := load_act_steer demo_world;
  get_activation_steering := get_activation_steering demo_world;
  steer_model := steer_model demo_world;
  multi_criterion_evaluation := fun _ _ _ _ => Ok ([], [rating 5]);
  write_json := write_json demo_world;
  write_image := write_image demo_world;
  py_repr := py_repr demo_world
|}.

(** A world in which a whole sweep over the one directory [cfg] goes
    through: an autoencoder with one feature on a model of width zero, and
    an adapter without rows, so that every vector is the empty tensor. *)
Definition whole_sweep_world : world := {|
  open_json := fun _ file =>
    if String.eqb file "cfg/criteria.json" then Ok demo_criteria
    else if String.eqb file "cfg/feature_steer.json" then
      Ok (PDict (<["sae" := PStr "gemma-scope-2b-pt-res"]>
                (<["layer" := PInt 12]>
                (<["hp" := PStr "blocks.12.hook_resid_post"]>
                 {[ "features" := PList [PList [PInt 0; PInt 1]] ]}))))
    else if String.eqb file "cfg/optimised_steer.json" then
      Ok (PDict (<["sae" := PStr "gemma-scope-2b-pt-res"]>
                (<["layer" := PInt 12]>
                (<["hp" := PStr "blocks.12.hook_resid_post"]>
                 {[ "features" := PList [] ]}))))
    else Raise (FileNotFoundError file);
  from_pretrained := fun _ _ _ => Ok {| W_enc := []; W_dec := [[]] |};
  normalise_decoder := fun sae => sae;
  hf_hub_download := hf_hub_download demo_world;
  np_load := np_load demo_world;
  jumprelu_load := jumprelu_load demo_world;
  torch_load := fun _ _ => Ok {| W := []; b := [] |};
  linalg_pinv := pinv1;
  advanced_getitem := fun _ _ => Raise IndexError;
  advanced_index := fun _ _ => Raise IndexError;
  load_act_steer := load_act_steer demo_world;
  get_activation_steering := get_activation_steering demo_world;
  steer_model := steer_model demo_world;
  multi_criterion_evaluation := multi_criterion_evaluation demo_world;
  write_json := write_json demo_world;
  write_image := write_image demo_world;
  py_repr := py_repr demo_world
|}.

(** the records a completed sweep holds: one per configuration and
    method, in the order of the two loops *)
Definition expected_pairs (paths : list string) : list (string * string) :=
  flat_map (fun path => map (fun m => (path, method_tag m)) methods) paths.

(** ** Ranges *)

(** a value that fits the chart, whose y axis runs from 0 to 1 *)
Definition unit_interval (q : Q) : Prop := (0 <= q)%Q /\ (q <= 1)%Q.

(** a rating whose raw score lies on the rubric scale, 1 to 10 *)
Definition on_rubric_scale (item : pyval) : Prop :=
  exists q, (v ← py_getitem item "score"; py_number v) = Ok q /\ (1 <= q)%Q /\ (q <= 10)%Q.

(** * Properties *)

(** ** Runs of the monad *)

Lemma bind_run {A B} (m : M A) (k : A -> M B) (h : history) :
  (m ≫= k) h =
  match m h with
  | (Ok a, h') => k a h'
  | (Raise e, h') => (Raise e, h')
  end.
Proof. reflexivity. Qed.

Lemma bind_ok_inv {A B} (m : M A) (k : A -> M B) (h h' : history) (y : B) :
  (m ≫= k) h = (Ok y, h') ->
  exists a h1, m h = (Ok a, h1) /\ k a h1 = (Ok y, h').
Proof.
  rewrite bind_run. destruct (m h) as [[a|e] h1]; intros E.
  - exists a, h1. split; [reflexivity | exact E].
  - discriminate E.
Qed.

Lemma lift_ok_inv {A} (r : res A) (h h' : history) (a : A) :
  lift r h = (Ok a, h') -> r = Ok a /\ h' = h.
Proof. unfold lift. intros E. injection E as -> ->. split; reflexivity. Qed.

Lemma ret_ok_inv {A} (x a : A) (h h' : history) :
  (mret x : M A) h = (Ok a, h') -> a = x /\ h' = h.
Proof. intros E. injection E as -> ->. split; reflexivity. Qed.

Lemma call_ok_inv {A} (oracle : history -> res A) ev (h h' : history) (a : A) :
  call oracle ev h = (Ok a, h') -> oracle h = Ok a /\ h' = (h ++ [ev (Ok a)])%list.
Proof.
  unfold call. intros E. injection E as E1 E2. rewrite E1 in E2. split; [exact E1 | now symmetry].
Qed.

Lemma res_bind_ok_inv {A B} (r : res A) (k : A -> res B) (y : B) :
  (r ≫= k) = Ok y -> exists a, r = Ok a /\ k a = Ok y.
Proof.
  destruct r as [a|e]; intros E; [exists a; split; [reflexivity | exact E] | discriminate E].
Qed.

(** ** The trace logic *)

Lemma traced_weaken {A} (m : M A) (Q Q' : res A -> list event -> Prop) :
  traced m Q -> (forall r t, Q r t -> Q' r t) -> traced m Q'.
Proof.
  intros Hm HQ h. destruct (Hm h) as (t & Ht & Hq). exists t. split; [exact Ht | now apply HQ].
Qed.

Lemma traced_ret {A} (a : A) (Q : res A -> list event -> Prop) :
  Q (Ok a) [] -> traced (mret a) Q.
Proof. intros Hq h. exists []. split; [simpl; now rewrite app_nil_r | exact Hq]. Qed.

Lemma traced_lift {A} (r : res A) (Q : res A -> list event -> Prop) :
  Q r [] -> traced (lift r) Q.
Proof. intros Hq h. exists []. split; [simpl; now rewrite app_nil_r | exact Hq]. Qed.

Lemma traced_call {A} (oracle : history -> res A) ev (Q : res A -> list event -> Prop) :
  (forall r, Q r [ev r]) -> traced (call oracle ev) Q.
Proof. intros Hq h. exists [ev (oracle h)]. split; [reflexivity | apply Hq]. Qed.

Lemma traced_bind {A B} (m : M A) (k : A -> M B)
    (Q1 : res A -> list event -> Prop) (Q : res B -> list event -> Prop) :
  traced m Q1 ->
  (forall e t, Q1 (Raise e) t -> Q (Raise e) t) ->
  (forall a t1, Q1 (Ok a) t1 -> traced (k a) (fun r t2 => Q r (t1 ++ t2)%list)) ->
  traced (m ≫= k) Q.
Proof.
  intros Hm Hraise Hk h. destruct (Hm h) as (t1 & Ht1 & Hq1).
  rewrite bind_run. destruct (m h) as [[a|e] h1]; simpl in Ht1, Hq1; subst h1.
  - destruct (Hk a t1 Hq1 (h ++ t1)%list) as (t2 & Ht2 & Hq2).
    exists (t1 ++ t2)%list. split; [now rewrite Ht2, app_assoc | exact Hq2].
  - exists t1. split; [reflexivity | now apply Hraise].
Qed.

Lemma traced_lift_bind {A B} (r : res A) (k : A -> M B) (Q : res B -> list event -> Prop) :
  match r with
  | Ok a => traced (k a) Q
  | Raise e => Q (Raise e) []
  end ->
  traced (lift r ≫= k) Q.
Proof.
  intros H h. rewrite bind_run. unfold lift. destruct r as [a|e].
  - apply H.
  - exists []. split; [simpl; now rewrite app_nil_r | exact H].
Qed.

Lemma traced_call_bind {A B} (oracle : history -> res A) ev (k : A -> M B)
    (Q : res B -> list event -> Prop) :
  (forall r, match r with
             | Ok a => traced (k a) (fun r' t => Q r' (ev r :: t))
             | Raise e => Q (Raise e) [ev r]
             end) ->
  traced (call oracle ev ≫= k) Q.
Proof.
  intros H h. rewrite bind_run. unfold call. specialize (H (oracle h)).
  destruct (oracle h) as [a|e].
  - destruct (H (h ++ [ev (Ok a)])%list) as (t & Ht & Hq).
    exists (ev (Ok a) :: t). split; [now rewrite Ht, <- app_assoc | exact Hq].
  - exists [ev (Raise e)]. split; [reflexivity | exact H].
Qed.

Lemma traced_run {A} (m : M A) (Q : res A -> list event -> Prop) (h h' : history) (r : res A) :
  traced m Q -> m h = (r, h') -> exists t, h' = (h ++ t)%list /\ Q r t.
Proof. intros Hm E. destruct (Hm h) as (t & Ht & Hq). rewrite E in Ht, Hq. now exists t. Qed.

Lemma lift_bind {A B} (r : res A) (k : A -> M B) (h : history) :
  (lift r ≫= k) h = match r with Ok a => k a h | Raise e => (Raise e, h) end.
Proof. rewrite bind_run. unfold lift. now destruct r. Qed.

Lemma call_bind {A B} (oracle : history -> res A) ev (k : A -> M B) (h : history) :
  (call oracle ev ≫= k) h =
  match oracle h with
  | Ok a => k a (h ++ [ev (Ok a)])%list
  | Raise e => (Raise e, (h ++ [ev (Raise e)])%list)
  end.
Proof. rewrite bind_run. unfold call. now destruct (oracle h). Qed.

Ltac step :=
  lazymatch goal with
  | |- traced (lift _ ≫= _) _ => apply traced_lift_bind
  | |- traced (call _ _ ≫= _) _ => apply traced_call_bind; intros [?|?]
  | |- traced (mret _) _ => apply traced_ret
  | |- traced (lift _) _ => apply traced_lift
  | |- traced (call _ _) _ => apply traced_call; intros [?|?]
  end; cbv beta.

Ltac case_res :=
  lazymatch goal with
  | |- match ?r with Ok _ => _ | Raise _ => _ end => destruct r eqn:?
  end.

(** ** The autoencoder back-end *)

Lemma py_eq_str_true (v : pyval) (s : string) : py_eq_str v s = true <-> v = PStr s.
Proof.
  destruct v; simpl; try (split; [discriminate | intros E; discriminate E]).
  rewrite String.eqb_eq. split; [now intros -> | now intros [= ->]].
Qed.

Lemma py_eq_str_false (v : pyval) (s : string) : v <> PStr s -> py_eq_str v s = false.
Proof.
  intros Hne. destruct (py_eq_str v s) eqn:E; [|reflexivity].
  apply py_eq_str_true in E. contradiction.
Qed.


(** The last branch of [load_sae_model] is the only place where a
    [ValueError] arises without a call to the outside. *)
Lemma unknown_method_only_if_present (w : world) (config : pyval) (h : history) (msg : string) :
  load_sae_model w config h = (Raise (ValueError msg), h) ->
  exists d v, config = PDict d /\ d !! "sae_load_method" = Some v /\
              v <> PStr "saelens" /\ v <> PStr "gemmascope" /\
              msg = "Unknown sae_load_method: " ++ py_str w v.
Proof.
  intros E.
  assert (Hq : traced (load_sae_model w config)
            (fun r t => t = [] -> r = Raise (ValueError msg) ->
               exists d v, config = PDict d /\ d !! "sae_load_method" = Some v /\
                 v <> PStr "saelens" /\ v <> PStr "gemmascope" /\
                 msg = "Unknown sae_load_method: " ++ py_str w v)).
  { assert (Hkey : forall c k, py_getitem c k <> Raise (ValueError msg)).
    { intros [| | | | | |d] k; simpl; try discriminate. destruct (d !! k); discriminate. }
    unfold load_sae_model. step.
    case_res; [|destruct config; discriminate].
    destruct (py_eq_str a "saelens") eqn:E1; [|destruct (py_eq_str a "gemmascope") eqn:E2].
    - step. case_res; [|intros _ [= ->]; now apply Hkey in Heqr0].
      step. case_res; [|intros _ [= ->]; now apply Hkey in Heqr1].
      step; [step|]; discriminate.
    - step. case_res; [|intros _ [= ->]; now apply Hkey in Heqr0].
      step. case_res; [|intros _ [= ->]; now apply Hkey in Heqr1].
      step; [|discriminate]. step; [|discriminate].
      step. case_res; [|discriminate]. step; discriminate.
    - step. intros _ [= <-].
      destruct config as [| | | | | |d]; try discriminate. simpl in Heqr.
      exists d, a. destruct (d !! "sae_load_method") as [v|] eqn:Hv.
      + injection Heqr as ->. repeat split; trivial.
        * intros ->. discriminate E1.
        * intros ->. discriminate E2.
      + injection Heqr as <-. discriminate E1. }
  destruct (traced_run _ _ _ _ _ Hq E) as (t & Ht & H). apply H; [|reflexivity].
  apply (f_equal length) in Ht. rewrite length_app in Ht. destruct t; [reflexivity | simpl in Ht; lia].
Qed.

(** C5.  A configured ['sae_load_method'] other than ['saelens'] and
    ['gemmascope'] makes [load_sae_model] raise
    [ValueError("Unknown sae_load_method: <value>")]; the history is left
    as it was, so no back-end was tried instead. *)
Theorem load_sae_model_rejects_unknown_method
    (w : world) (d : gmap string pyval) (v : pyval) (h : history) :
  d !! "sae_load_method" = Some v ->
  v <> PStr "saelens" ->
  v <> PStr "gemmascope" ->
  load_sae_model w (PDict d) h =
    (Raise (ValueError ("Unknown sae_load_method: " ++ py_str w v)), h).
Proof.
  intros Hv H1 H2. unfold load_sae_model. rewrite bind_run. simpl. rewrite Hv.
  rewrite (py_eq_str_false _ _ H1), (py_eq_str_false _ _ H2). reflexivity.
Qed.

Lemma load_sae_model_rejects_unknown_method_witness :
  load_sae_model demo_world (PDict {[ "sae_load_method" := PStr "eleuther" ]}) [] =
    (Raise (ValueError "Unknown sae_load_method: eleuther"), []).
Proof.
  apply (load_sae_model_rejects_unknown_method demo_world _ (PStr "eleuther"));
    [reflexivity | discriminate | discriminate].
Defined.

(** C10.  Without a ['sae_load_method'] key [load_sae_model] behaves as
    with ['saelens']: it does not raise the unknown-method error, and it
    returns the normalised hub model whenever the hub delivers one. *)
Theorem load_sae_model_defaults_to_saelens
    (w : world) (d : gmap string pyval) (h : history) :
  d !! "sae_load_method" = None ->
  load_sae_model w (PDict d) h =
    load_sae_model w (PDict (<["sae_load_method" := PStr "saelens"]> d)) h
  /\ (forall msg, load_sae_model w (PDict d) h <> (Raise (ValueError msg), h))
  /\ (forall release sae_id sae,
        d !! "sae" = Some release -> d !! "layer" = Some sae_id ->
        from_pretrained w h release sae_id = Ok sae ->
        load_sae_model w (PDict d) h =
          (Ok (normalise_decoder w sae),
           (h ++ [EvFromPretrained release sae_id None])%list)).
Proof.
  intros Hnone. split; [|split].
  - unfold load_sae_model. rewrite !bind_run. simpl.
    rewrite Hnone, lookup_insert_eq. simpl.
    rewrite !bind_run. simpl. rewrite !lookup_insert_ne by discriminate. reflexivity.
  - intros msg E. apply unknown_method_only_if_present in E.
    destruct E as (d' & v & [= <-] & Hv & _). congruence.
  - intros release sae_id sae Hr Hl Hs.
    unfold load_sae_model. rewrite lift_bind. cbn [py_get]. rewrite Hnone.
    change (py_eq_str (PStr "saelens") "saelens") with true. cbv iota.
    rewrite lift_bind. cbn [py_get py_getitem]. rewrite Hr.
    rewrite lift_bind. cbn [py_getitem]. rewrite Hl.
    rewrite call_bind, Hs. reflexivity.
Qed.

Lemma load_sae_model_defaults_to_saelens_witness :
  load_sae_model demo_world
    (PDict (<["sae" := PStr "gemma-scope-2b-pt-res"]> {[ "layer" := PStr "layer_12" ]})) [] =
  (Ok {| W_enc := [[]]; W_dec := [] |},
   [EvFromPretrained (PStr "gemma-scope-2b-pt-res") (PStr "layer_12") None]).
Proof.
  apply (load_sae_model_defaults_to_saelens demo_world
           (<["sae" := PStr "gemma-scope-2b-pt-res"]> {[ "layer" := PStr "layer_12" ]}) []);
    reflexivity.
Defined.

(** ** Scoring arithmetic *)

Lemma rescale_range (r : Q) : (1 <= r)%Q -> (r <= 10)%Q -> (0 <= rescale r)%Q /\ (rescale r <= 1)%Q.
Proof.
  intros H1 H2. unfold rescale. split.
  - apply Qle_shift_div_l; [reflexivity | lra].
  - apply Qle_shift_div_r; [reflexivity | lra].
Qed.

Lemma map_res_ok_inv {A B} (f : A -> res B) (l : list A) (out : list B) :
  map_res f l = Ok out -> Forall2 (fun x y => f x = Ok y) l out.
Proof.
  revert out. induction l as [|x l IH]; intros out E; simpl in E.
  - injection E as <-. constructor.
  - apply res_bind_ok_inv in E. destruct E as (y & Hy & E).
    apply res_bind_ok_inv in E. destruct E as (ys & Hys & [= <-]).
    constructor; [exact Hy | now apply IH].
Qed.

Lemma map_res_ok_intro {A B} (f : A -> res B) (l : list A) (out : list B) :
  Forall2 (fun x y => f x = Ok y) l out -> map_res f l = Ok out.
Proof.
  induction 1 as [|x y l out Hxy _ IH]; simpl; [reflexivity|].
  rewrite Hxy. simpl. rewrite IH. reflexivity.
Qed.

Lemma py_rescale_ok_inv (item : pyval) (y : Q) :
  py_rescale item = Ok y -> exists q, py_number item = Ok q /\ y = rescale q.
Proof.
  unfold py_rescale. intros E. apply res_bind_ok_inv in E. destruct E as (q & Hq & E).
  exists q. split; [exact Hq|].
  destruct item; try (now injection E as <-).
  destruct (9 * float_overflow <=? Z.abs (z - 1)); [discriminate E | now injection E as <-].
Qed.

(** The two passes of the source compute the rescaled raw scores. *)
Lemma rescale_ratings_spec (ratings : list pyval) (out : list Q) :
  rescale_ratings ratings = Ok out ->
  exists raw, raw_scores ratings = Ok raw /\ out = map rescale raw.
Proof.
  unfold rescale_ratings, raw_scores.
  intros E. apply res_bind_ok_inv in E. destruct E as (vals & Hvals & E).
  apply map_res_ok_inv in Hvals. apply map_res_ok_inv in E.
  revert out E. induction Hvals as [|item v ratings vals Hv _ IH]; intros out E.
  - inversion E; subst. exists []. split; reflexivity.
  - inversion E as [|? x ? out' Hx Hrest]; subst.
    apply py_rescale_ok_inv in Hx. destruct Hx as (q & Hq & ->).
    destruct (IH _ Hrest) as (raw & Hraw & ->).
    exists (q :: raw). split; [|reflexivity].
    simpl. rewrite Hv. simpl. rewrite Hq. simpl. rewrite Hraw. reflexivity.
Qed.

Lemma fold_max_spec (l : list Q) (x m : Q) :
  fold_left (fun cur y => if Qle_bool y cur then cur else y) l x = m ->
  (x <= m)%Q /\ (forall y, In y l -> (y <= m)%Q) /\ (m = x \/ In m l).
Proof.
  revert x. induction l as [|y l IH]; intros x E; simpl in E.
  - subst. split; [apply Qle_refl | split; [intros y [] | now left]].
  - destruct (Qle_bool y x) eqn:Hle.
    + apply Qle_bool_iff in Hle. destruct (IH _ E) as (H1 & H2 & H3).
      split; [exact H1 | split].
      * intros z [<-|Hz]; [now apply Qle_trans with x | now apply H2].
      * destruct H3; [now left | right; now right].
    + assert (Hlt : (x < y)%Q).
      { apply Qnot_le_lt. intros H. apply Qle_bool_iff in H. congruence. }
      destruct (IH _ E) as (H1 & H2 & H3).
      split; [apply Qle_trans with y; [now apply Qlt_le_weak | exact H1] | split].
      * intros z [<-|Hz]; [exact H1 | now apply H2].
      * right. destruct H3 as [->|H3]; [now left | now right].
Qed.

Lemma py_max_spec (l : list Q) (m : Q) :
  py_max l = Ok m -> In m l /\ forall y, In y l -> (y <= m)%Q.
Proof.
  destruct l as [|x l]; [discriminate|]. simpl. intros [= E].
  destruct (fold_max_spec _ _ _ E) as (H1 & H2 & H3). split.
  - destruct H3 as [->|H3]; [now left | now right].
  - intros y [<-|Hy]; [exact H1 | now apply H2].
Qed.

Lemma py_list_index_spec (l : list Q) (x : Q) (i : nat) :
  py_list_index l x = Ok i ->
  exists y, nth_error l i = Some y /\ (y == x)%Q /\
            forall j z, (j < i)%nat -> nth_error l j = Some z -> ~ (z == x)%Q.
Proof.
  revert i. induction l as [|y l IH]; intros i E; simpl in E; [discriminate|].
  destruct (Qeq_bool y x) eqn:Hyx.
  - injection E as <-. exists y. split; [reflexivity | split; [now apply Qeq_bool_iff | intros; lia]].
  - apply res_bind_ok_inv in E. destruct E as (i' & Hi' & [= <-]).
    destruct (IH _ Hi') as (y' & Hn & Heq & Hfirst). exists y'.
    split; [exact Hn | split; [exact Heq|]].
    intros [|j] z Hj Hz; simpl in Hz.
    + injection Hz as <-. intros H. apply Qeq_bool_iff in H. congruence.
    + apply (Hfirst j z); [lia | exact Hz].
Qed.

(** [l.index(max(l))] is the first position of the largest value. *)
Lemma index_of_max_is_first_argmax (l : list Q) (m : Q) (i : nat) :
  py_max l = Ok m -> py_list_index l m = Ok i ->
  exists m', first_argmax l i m' /\ (m' == m)%Q.
Proof.
  intros Hmax Hidx. destruct (py_max_spec _ _ Hmax) as (_ & Hle).
  destruct (py_list_index_spec _ _ _ Hidx) as (m' & Hn & Heq & Hfirst).
  exists m'. split; [|exact Heq]. split; [exact Hn | split].
  - intros j x Hx. rewrite Heq. apply Hle. eapply nth_error_In, Hx.
  - intros j x Hj Hx. rewrite Heq.
    assert (Hxm : (x <= m)%Q) by (apply Hle; eapply nth_error_In, Hx).
    apply Qle_lteq in Hxm.
    destruct Hxm as [Hlt|He]; [exact Hlt | exfalso; now apply (Hfirst j x Hj Hx)].
Qed.

Lemma py_list_index_finds (l : list Q) (m : Q) :
  In m l -> exists i, py_list_index l m = Ok i.
Proof.
  induction l as [|y l IH]; intros Hin; [destruct Hin|].
  cbn [py_list_index]. destruct (Qeq_bool y m) eqn:Hy; [now exists 0%nat|].
  destruct Hin as [->|Hin].
  - pose proof (Qeq_bool_refl m). congruence.
  - destruct (IH Hin) as (i & ->). now exists (S i).
Qed.

(** the maximum of a non-empty list exists and is found again *)
Lemma index_of_max_exists (l : list Q) :
  l <> [] -> exists m i, py_max l = Ok m /\ py_list_index l m = Ok i.
Proof.
  intros Hne. destruct l as [|x l]; [contradiction|].
  destruct (py_max (x :: l)) as [m|e] eqn:Hmax; [|discriminate].
  destruct (py_max_spec _ _ Hmax) as (Hin & _).
  destruct (py_list_index_finds _ _ Hin) as (i & Hi).
  exists m, i. split; [reflexivity | exact Hi].
Qed.

(** ** One sweep *)

(** What a completed iteration of the loop did. *)
Lemma sweep_step_ok_inv (w : world) (steer : tensor) (hp prompt criteria : pyval)
    (scale : Z) (acc acc' : sweep_lists) (h h' : history) :
  sweep_step w steer hp prompt criteria scale acc h = (Ok acc', h') ->
  exists it, it_scale it = scale /\ iteration_ok it /\
    h' = (h ++ iteration_events steer hp prompt it)%list /\
    acc' = extend acc [it].
Proof.
  unfold sweep_step. intros E.
  apply bind_ok_inv in E. destruct E as (texts & h1 & Hgen & E).
  apply call_ok_inv in Hgen. destruct Hgen as (_ & ->).
  apply bind_ok_inv in E. destruct E as (c0 & h2 & H0 & E). apply lift_ok_inv in H0 as (_ & ->).
  apply bind_ok_inv in E. destruct E as (cs & h2 & H1 & E). apply lift_ok_inv in H1 as (_ & ->).
  apply bind_ok_inv in E. destruct E as (c0' & h2 & H2 & E). apply lift_ok_inv in H2 as (_ & ->).
  apply bind_ok_inv in E. destruct E as (cc & h2 & H3 & E). apply lift_ok_inv in H3 as (_ & ->).
  apply bind_ok_inv in E. destruct E as ([reply_s reply_c] & h2 & Hev & E).
  apply call_ok_inv in Hev. destruct Hev as (_ & ->).
  apply bind_ok_inv in E. destruct E as (score & h2 & Hs & E). apply lift_ok_inv in Hs as (Hs & ->).
  apply bind_ok_inv in E. destruct E as (coh & h2 & Hc & E). apply lift_ok_inv in Hc as (Hc & ->).
  apply bind_ok_inv in E. destruct E as (ms & h2 & Hms & E). apply lift_ok_inv in Hms as (Hms & ->).
  apply bind_ok_inv in E. destruct E as (mc & h2 & Hmc & E). apply lift_ok_inv in Hmc as (Hmc & ->).
  apply ret_ok_inv in E. destruct E as (-> & ->).
  exists {| it_scale := scale; it_texts := texts; it_rubrics := [cs; cc];
            it_reply_score := reply_s; it_reply_coherence := reply_c;
            it_score := score; it_coherence := coh;
            it_mean_score := ms; it_mean_coherence := mc |}.
  split; [reflexivity | split; [repeat split; assumption | split]].
  - unfold iteration_events. simpl. now rewrite <- app_assoc.
  - reflexivity.
Qed.

Lemma extend_nil (acc : sweep_lists) : extend acc [] = acc.
Proof. destruct acc. unfold extend. simpl. now rewrite !app_nil_r. Qed.

Lemma extend_app (acc : sweep_lists) (its1 its2 : list iteration) :
  extend (extend acc its1) its2 = extend acc (its1 ++ its2).
Proof. unfold extend. simpl. now rewrite !map_app, !app_assoc. Qed.

(** What a completed loop did. *)
Lemma sweep_loop_ok_inv (w : world) (steer : tensor) (hp prompt criteria : pyval)
    (l : list Z) (acc acc' : sweep_lists) (h h' : history) :
  for_each l (sweep_step w steer hp prompt criteria) acc h = (Ok acc', h') ->
  exists its, map it_scale its = l /\ Forall iteration_ok its /\
    h' = (h ++ flat_map (iteration_events steer hp prompt) its)%list /\
    acc' = extend acc its.
Proof.
  revert acc h. induction l as [|scale l IH]; intros acc h E; simpl in E.
  - apply ret_ok_inv in E. destruct E as (-> & ->). exists [].
    repeat split; [constructor | simpl; now rewrite app_nil_r | now rewrite extend_nil].
  - apply bind_ok_inv in E. destruct E as (acc1 & h1 & Hstep & E).
    apply sweep_step_ok_inv in Hstep. destruct Hstep as (it & Hsc & Hok & -> & ->).
    apply IH in E. destruct E as (its & Hscs & Hoks & -> & ->).
    exists (it :: its). split; [simpl; now rewrite Hsc, Hscs | split; [now constructor | split]].
    + cbn [flat_map]. now rewrite app_assoc.
    + apply (extend_app acc [it] its).
Qed.

Lemma plot_ok_inv (w : world) path coherence score product scales method name
    (h h' : history) (u : unit) :
  plot w path coherence score product scales method name h = (Ok u, h') ->
  exists file fig, h' = (h ++ [EvWriteImage file fig None])%list.
Proof.
  unfold plot. intros E.
  apply bind_ok_inv in E. destruct E as (safe & h1 & Hs & E). apply lift_ok_inv in Hs as (_ & ->).
  apply call_ok_inv in E. destruct E as (_ & ->). eexists _, _. reflexivity.
Qed.

(** What a completed [analyse_steer] did. *)
Lemma analyse_steer_ok_inv (w : world) (default_prompt : option pyval) (steer : tensor)
    (hp : pyval) (path method : string) (h h' : history) (s : summary) (gd : graph_data) :
  analyse_steer w default_prompt steer hp path method h = (Ok (s, gd), h') ->
  exists criteria prompt its mi t_read t_write,
    match default_prompt with
    | Some p =>
        prompt = p /\ t_read = [EvReadJson (path_join path "criteria.json") (Ok criteria)]
    | None =>
        exists prompts,
          py_getitem_int prompts 0 = Ok prompt /\
          t_read = [EvReadJson (path_join path "criteria.json") (Ok criteria);
                    EvReadJson (path_join path "prompts.json") (Ok prompts)]
    end /\
    map it_scale its = py_range 0 320 20 /\
    Forall iteration_ok its /\
    h' = (h ++ t_read ++ flat_map (iteration_events steer hp prompt) its ++ t_write)%list /\
    generations t_write = [] /\ evaluations t_write = [] /\ json_reads t_write = [] /\
    scales gd = py_range 0 320 20 /\
    avg_score gd = map it_mean_score its /\
    avg_coherence gd = map it_mean_coherence its /\
    product gd = zip_with Qmult (avg_coherence gd) (avg_score gd) /\
    individual_scores gd = map it_score its /\
    individual_coherences gd = map it_coherence its /\
    individual_products gd = map (fun it => zip_with Qmult (it_score it) (it_coherence it)) its /\
    py_max (product gd) = Ok (max_product s) /\
    py_list_index (product gd) (max_product s) = Ok mi /\
    nth_error (scales gd) mi = Some (scale_at_max s).
Proof.
  unfold analyse_steer. intros E.
  apply bind_ok_inv in E. destruct E as (criteria & h1 & Hc & E).
  apply call_ok_inv in Hc. destruct Hc as (_ & ->).
  apply bind_ok_inv in E. destruct E as (prompt & h2 & Hp & E).
  assert (Hprompt : exists t_read, h2 = (h ++ t_read)%list /\
    match default_prompt with
    | Some p =>
        prompt = p /\ t_read = [EvReadJson (path_join path "criteria.json") (Ok criteria)]
    | None =>
        exists prompts,
          py_getitem_int prompts 0 = Ok prompt /\
          t_read = [EvReadJson (path_join path "criteria.json") (Ok criteria);
                    EvReadJson (path_join path "prompts.json") (Ok prompts)]
    end).
  { destruct default_prompt as [p|].
    - apply ret_ok_inv in Hp. destruct Hp as (-> & ->). eexists. split; [reflexivity|]. now split.
    - apply bind_ok_inv in Hp. destruct Hp as (prompts & h3 & Hr & Hp).
      apply call_ok_inv in Hr. destruct Hr as (Hr & ->).
      apply lift_ok_inv in Hp. destruct Hp as (Hp & ->).
      eexists. split; [now rewrite <- app_assoc|]. exists prompts. now split. }
  destruct Hprompt as (t_read & -> & Hprompt). clear Hp.
  apply bind_ok_inv in E. destruct E as (c0 & h2 & H0 & E). apply lift_ok_inv in H0 as (_ & ->).
  apply bind_ok_inv in E. destruct E as (name & h2 & Hn & E). apply lift_ok_inv in Hn as (_ & ->).
  apply bind_ok_inv in E. destruct E as (acc & h2 & Hloop & E).
  apply sweep_loop_ok_inv in Hloop. destruct Hloop as (its & Hsc & Hok & -> & ->).
  apply bind_ok_inv in E. destruct E as (mp & h2 & Hmax & E). apply lift_ok_inv in Hmax as (Hmax & ->).
  apply bind_ok_inv in E. destruct E as (mi & h2 & Hidx & E). apply lift_ok_inv in Hidx as (Hidx & ->).
  apply bind_ok_inv in E. destruct E as (ms & h2 & Hat & E). apply lift_ok_inv in Hat as (Hat & ->).
  apply bind_ok_inv in E. destruct E as (u1 & h2 & Hw & E).
  apply call_ok_inv in Hw. destruct Hw as (_ & ->). cbn [logged outcome] in E.
  apply bind_ok_inv in E. destruct E as (u2 & h2 & Hplot & E).
  apply plot_ok_inv in Hplot. destruct Hplot as (file & fig & ->).
  apply ret_ok_inv in E. destruct E as ([= -> ->] & ->).
  exists criteria, prompt, its, mi, t_read. eexists. split; [exact Hprompt|].
  split; [exact Hsc | split; [exact Hok | split]].
  { rewrite <- !app_assoc. reflexivity. }
  cbn. repeat split; try reflexivity; try assumption.
  unfold list_at in Hat. destruct (nth_error _ mi); [now injection Hat as -> | discriminate].
Qed.

Lemma nth_error_zip_with {A B C} (f : A -> B -> C) (l : list A) (k : list B) (i : nat) :
  nth_error (zip_with f l k) i =
  match nth_error l i, nth_error k i with
  | Some x, Some y => Some (f x y)
  | _, _ => None
  end.
Proof.
  revert k i. induction l as [|x l IH]; intros [|y k] [|i]; simpl; try reflexivity.
  - now destruct (nth_error l i).
  - apply IH.
Qed.

Lemma generations_iterations (steer : tensor) (hp prompt : pyval) (its : list iteration) :
  generations (flat_map (iteration_events steer hp prompt) its) =
  map (fun sc => (sc, 256, prompt)) (map it_scale its).
Proof. induction its as [|it its IH]; simpl; [reflexivity | now rewrite <- IH]. Qed.

Lemma evaluations_iterations (steer : tensor) (hp prompt : pyval) (its : list iteration) :
  evaluations (flat_map (iteration_events steer hp prompt) its) =
  map (fun it => (it_reply_score it, it_reply_coherence it)) its.
Proof. induction its as [|it its IH]; simpl; [reflexivity | now rewrite <- IH]. Qed.

Lemma generations_app (t1 t2 : list event) :
  generations (t1 ++ t2) = (generations t1 ++ generations t2)%list.
Proof. apply flat_map_app. Qed.

Lemma evaluations_app (t1 t2 : list event) :
  evaluations (t1 ++ t2) = (evaluations t1 ++ evaluations t2)%list.
Proof. apply flat_map_app. Qed.

(** C9.  In the graph data of a completed [analyse_steer] the seven lists
    have one entry per swept scale, sixteen, and [product] is entry by
    entry [avg_coherence] times [avg_score]. *)
Theorem graph_data_lists_aligned (w : world) (default_prompt : option pyval)
    (steer : tensor) (hp : pyval) (path method : string) (h h' : history)
    (s : summary) (gd : graph_data) :
  analyse_steer w default_prompt steer hp path method h = (Ok (s, gd), h') ->
  (length (scales gd) = 16 /\ length (avg_coherence gd) = 16 /\
   length (avg_score gd) = 16 /\ length (product gd) = 16 /\
   length (individual_scores gd) = 16 /\ length (individual_coherences gd) = 16 /\
   length (individual_products gd) = 16)%nat /\
  forall i, (i < 16)%nat ->
    exists c sc, nth_error (avg_coherence gd) i = Some c /\
                 nth_error (avg_score gd) i = Some sc /\
                 nth_error (product gd) i = Some (c * sc)%Q.
Proof.
  intros E. apply analyse_steer_ok_inv in E.
  destruct E as (criteria & prompt & its & mi & t_read & t_write & _ & Hsc & _ & _ & _ & _ & _
                 & Hscales & Has & Hac & Hprod & Hs & Hc & Hp & _).
  assert (Hlen : length its = 16%nat).
  { rewrite <- (length_map it_scale), Hsc. reflexivity. }
  assert (L1 : length (avg_coherence gd) = 16%nat) by now rewrite Hac, length_map.
  assert (L2 : length (avg_score gd) = 16%nat) by now rewrite Has, length_map.
  split.
  - rewrite Hscales, Hprod, length_zip_with, L1, L2, Hs, Hc, Hp, !length_map, Hlen.
    repeat split; reflexivity.
  - intros i Hi.
    destruct (nth_error (avg_coherence gd) i) as [c|] eqn:Ec;
      [|apply nth_error_None in Ec; lia].
    destruct (nth_error (avg_score gd) i) as [sc|] eqn:Es;
      [|apply nth_error_None in Es; lia].
    exists c, sc. rewrite Hprod, nth_error_zip_with, Ec, Es. repeat split; reflexivity.
Qed.

Lemma graph_data_lists_aligned_witness :
  exists s gd h',
    analyse_steer demo_world (Some (PStr "I think")) NonFinite (PStr "blocks.12.hook_resid_post")
                  "cfg" "SAE" [] = (Ok (s, gd), h')
    /\ length (product gd) = 16%nat
    /\ nth_error (product gd) 2 = Some ((153 # 162) * (27 # 162))%Q.
Proof.
  eassert (E : analyse_steer demo_world (Some (PStr "I think")) NonFinite
                 (PStr "blocks.12.hook_resid_post") "cfg" "SAE" [] = (Ok (_, _), _))
    by (vm_compute; reflexivity).
  eexists _, _, _. split; [exact E|].
  destruct (graph_data_lists_aligned _ _ _ _ _ _ _ _ _ _ E) as ((_ & _ & _ & L & _) & _).
  split; [exact L | reflexivity].
Defined.

(** C3.  [range(0, 320, 20)] is 0, 20, ..., 300: sixteen values, the last
    one 300; a completed [analyse_steer] asks the generator once per scale,
    in this order, each time for 256 samples of the same prompt. *)
Theorem analyse_steer_sweeps_sixteen_scales (w : world) (default_prompt : option pyval)
    (steer : tensor) (hp : pyval) (path method : string) (h h' : history)
    (s : summary) (gd : graph_data) :
  analyse_steer w default_prompt steer hp path method h = (Ok (s, gd), h') ->
  py_range 0 320 20 = [0; 20; 40; 60; 80; 100; 120; 140; 160; 180; 200; 220; 240; 260; 280; 300]
  /\ length (py_range 0 320 20) = 16%nat
  /\ List.last (py_range 0 320 20) 0 = 300
  /\ exists prompt t, h' = (h ++ t)%list /\
       generations t = map (fun scale => (scale, 256, prompt)) (py_range 0 320 20).
Proof.
  intros E. split; [reflexivity | split; [reflexivity | split; [reflexivity|]]].
  apply analyse_steer_ok_inv in E.
  destruct E as (criteria & prompt & its & mi & t_read & t_write & Hread & Hsc & _ & -> & Hgw & _).
  exists prompt. eexists. split; [reflexivity|].
  rewrite !generations_app, generations_iterations, Hsc, Hgw, app_nil_r.
  assert (Hr : generations t_read = []).
  { destruct default_prompt; [destruct Hread as (_ & ->) | destruct Hread as (? & _ & ->)];
      reflexivity. }
  now rewrite Hr.
Qed.

Lemma analyse_steer_sweeps_sixteen_scales_witness :
  exists s gd h',
    analyse_steer demo_world None NonFinite (PStr "blocks.12.hook_resid_post")
                  "cfg" "ActSteer" [] = (Ok (s, gd), h')
    /\ exists prompt t, h' = ([] ++ t)%list /\
         generations t = map (fun scale => (scale, 256, prompt)) (py_range 0 320 20).
Proof.
  eassert (E : analyse_steer demo_world None NonFinite
                 (PStr "blocks.12.hook_resid_post") "cfg" "ActSteer" [] = (Ok (_, _), _))
    by (vm_compute; reflexivity).
  eexists _, _, _. split; [exact E|].
  exact (proj2 (proj2 (proj2 (analyse_steer_sweeps_sixteen_scales _ _ _ _ _ _ _ _ _ _ E)))).
Defined.

(** C2.  The reported [scale_at_max] is the scale at the first index where
    the per-scale product of the two means is largest, and [max_product] is
    the product there. *)
Theorem analyse_steer_reports_first_argmax (w : world) (default_prompt : option pyval)
    (steer : tensor) (hp : pyval) (path method : string) (h h' : history)
    (s : summary) (gd : graph_data) :
  analyse_steer w default_prompt steer hp path method h = (Ok (s, gd), h') ->
  product gd = zip_with Qmult (avg_coherence gd) (avg_score gd) /\
  exists i m, first_argmax (product gd) i m /\
              (m == max_product s)%Q /\
              nth_error (scales gd) i = Some (scale_at_max s).
Proof.
  intros E. apply analyse_steer_ok_inv in E.
  destruct E as (criteria & prompt & its & mi & t_read & t_write & _ & _ & _ & _ & _ & _ & _
                 & _ & _ & _ & Hprod & _ & _ & _ & Hmax & Hidx & Hat).
  split; [exact Hprod|].
  destruct (index_of_max_is_first_argmax _ _ _ Hmax Hidx) as (m & Hfirst & Hm).
  exists mi, m. repeat split; assumption || apply Hfirst.
Qed.

Lemma analyse_steer_reports_first_argmax_witness :
  exists s gd h',
    analyse_steer demo_world (Some (PStr "I think")) NonFinite (PStr "blocks.12.hook_resid_post")
                  "cfg" "SAE" [] = (Ok (s, gd), h')
    /\ scale_at_max s = 280
    /\ exists i m, first_argmax (product gd) i m /\ (m == max_product s)%Q /\
                   nth_error (scales gd) i = Some (scale_at_max s).
Proof.
  eassert (E : analyse_steer demo_world (Some (PStr "I think")) NonFinite
                 (PStr "blocks.12.hook_resid_post") "cfg" "SAE" [] = (Ok (_, _), _))
    by (vm_compute; reflexivity).
  eexists _, _, _. split; [exact E | split; [reflexivity|]].
  exact (proj2 (analyse_steer_reports_first_argmax _ _ _ _ _ _ _ _ _ _ E)).
Defined.

(** C4.  A raw score [r] becomes [(r - 1) / 9], which lies in [0, 1] for
    [r] from 1 to 10, is 0 at 1 and 1 at 10; in a completed [analyse_steer]
    every per-sample score and coherence is the rescaled raw score of the
    evaluator's reply. *)
Theorem rescale_applied_to_every_sample (w : world) (default_prompt : option pyval)
    (steer : tensor) (hp : pyval) (path method : string) (h h' : history)
    (s : summary) (gd : graph_data) :
  analyse_steer w default_prompt steer hp path method h = (Ok (s, gd), h') ->
  (forall r : Q, rescale r = ((r - 1) / 9)%Q) /\
  (forall r : Z, 1 <= r <= 10 ->
     (0 <= rescale (inject_Z r))%Q /\ (rescale (inject_Z r) <= 1)%Q) /\
  (rescale 1 == 0)%Q /\ (rescale 10 == 1)%Q /\
  exists t, h' = (h ++ t)%list /\
    Forall2 (fun reply scores =>
               exists raw, raw_scores (fst reply) = Ok raw /\ scores = map rescale raw)
            (evaluations t) (individual_scores gd) /\
    Forall2 (fun reply coherences =>
               exists raw, raw_scores (snd reply) = Ok raw /\ coherences = map rescale raw)
            (evaluations t) (individual_coherences gd).
Proof.
  intros E. split; [reflexivity | split; [|split; [reflexivity | split; [reflexivity|]]]].
  { intros r Hr. apply rescale_range.
    - rewrite Zle_Qle in Hr. apply Hr.
    - destruct Hr as [_ Hr]. rewrite Zle_Qle in Hr. apply Hr. }
  apply analyse_steer_ok_inv in E.
  destruct E as (criteria & prompt & its & mi & t_read & t_write & Hread & _ & Hok & -> & _
                 & Hew & _ & _ & _ & _ & _ & Hs & Hc & _).
  eexists. split; [reflexivity|].
  assert (Hr : evaluations t_read = []).
  { destruct default_prompt; [destruct Hread as (_ & ->) | destruct Hread as (? & _ & ->)];
      reflexivity. }
  rewrite !evaluations_app, evaluations_iterations, Hr, Hew, app_nil_r, Hs, Hc. simpl.
  clear Hs Hc.
  split; induction Hok as [|it its (H1 & H2 & _) _ IH]; simpl; constructor; try exact IH.
  - now apply rescale_ratings_spec.
  - now apply rescale_ratings_spec.
Qed.

Lemma rescale_applied_to_every_sample_witness :
  exists s gd h',
    analyse_steer demo_world (Some (PStr "I think")) NonFinite (PStr "blocks.12.hook_resid_post")
                  "cfg" "SAE" [] = (Ok (s, gd), h')
    /\ (rescale 1 == 0)%Q /\ (rescale 10 == 1)%Q
    /\ nth_error (individual_scores gd) 2 = Some [rescale 2; rescale 3].
Proof.
  eassert (E : analyse_steer demo_world (Some (PStr "I think")) NonFinite
                 (PStr "blocks.12.hook_resid_post") "cfg" "SAE" [] = (Ok (_, _), _))
    by (vm_compute; reflexivity).
  eexists _, _, _. split; [exact E|].
  destruct (rescale_applied_to_every_sample _ _ _ _ _ _ _ _ _ _ E) as (_ & _ & H1 & H10 & _).
  split; [exact H1 | split; [exact H10 | reflexivity]].
Defined.

(** ** Properties of traces that compose *)

Section TraceProperty.

(** A property of result and trace that holds of the empty trace, survives
    sequencing after a step that returned, and does not look at the type
    of a raised result. *)
Variable TP : forall A : Type, res A -> list event -> Prop.
Hypothesis TP_nil : forall A (r : res A), TP A r [].
Hypothesis TP_seq : forall A B (a : A) (r : res B) t1 t2,
  TP A (Ok a) t1 -> TP B r t2 -> TP B r (t1 ++ t2)%list.
Hypothesis TP_raise : forall A B e t, TP A (Raise e) t -> TP B (Raise e) t.

Lemma tp_ret {A} (a : A) : traced (mret a) (TP A).
Proof. apply traced_ret, TP_nil. Qed.

Lemma tp_lift {A} (r : res A) : traced (lift r) (TP A).
Proof. apply traced_lift, TP_nil. Qed.

Lemma tp_bind {A B} (m : M A) (k : A -> M B) :
  traced m (TP A) -> (forall a, traced (k a) (TP B)) -> traced (m ≫= k) (TP B).
Proof.
  intros Hm Hk. eapply traced_bind; [exact Hm | apply TP_raise |].
  intros a t1 H1. eapply traced_weaken; [apply Hk|].
  intros r t2 H2. now apply TP_seq with A a.
Qed.

Lemma tp_for_each {A S} (l : list A) (body : A -> S -> M S) (s : S) :
  (forall x s', traced (body x s') (TP S)) -> traced (for_each l body s) (TP S).
Proof.
  intros Hbody. revert s. induction l as [|x l IH]; intros s; simpl.
  - apply tp_ret.
  - apply tp_bind; [apply Hbody | exact IH].
Qed.

End TraceProperty.

(** *** Exceptions are never caught *)

Lemma clean_app (t1 t2 : list event) : clean t1 -> clean t2 -> clean (t1 ++ t2).
Proof. apply Forall_app_2. Qed.

Lemma fs_nil A (r : res A) : fail_stop r [].
Proof. destruct r; [constructor | left; constructor]. Qed.

Lemma fs_seq A B (a : A) (r : res B) (t1 t2 : list event) :
  fail_stop (Ok a) t1 -> fail_stop r t2 -> fail_stop r (t1 ++ t2)%list.
Proof.
  simpl. intros H1 H2. destruct r as [y|x]; simpl in *.
  - now apply clean_app.
  - destruct H2 as [H2|(t & e & -> & Ht & He)]; [left; now apply clean_app|].
    right. exists (t1 ++ t)%list, e. split; [now rewrite app_assoc | split; [now apply clean_app | exact He]].
Qed.

Lemma fs_raise A B (e : exn) (t : list event) :
  fail_stop (Raise e : res A) t -> fail_stop (Raise e : res B) t.
Proof. trivial. Qed.

Lemma fs_call {A} (oracle : history -> res A) (ev : res A -> event) :
  (forall r, failed (ev r) = outcome r) -> traced (call oracle ev) fail_stop.
Proof.
  intros Hev. apply traced_call. intros [a|x]; simpl.
  - constructor; [apply (Hev (Ok a)) | constructor].
  - right. exists [], (ev (Raise x)). split; [reflexivity | split; [constructor | apply (Hev (Raise x))]].
Qed.

Lemma fs_ret {A} (a : A) : traced (mret a) fail_stop.
Proof. apply (tp_ret (@fail_stop) fs_nil). Qed.

Lemma fs_lift {A} (r : res A) : traced (lift r) fail_stop.
Proof. apply (tp_lift (@fail_stop) fs_nil). Qed.

Lemma fs_bind {A B} (m : M A) (k : A -> M B) :
  traced m fail_stop -> (forall a, traced (k a) fail_stop) -> traced (m ≫= k) fail_stop.
Proof. apply (tp_bind (@fail_stop) fs_seq fs_raise). Qed.

Lemma fs_for_each {A S} (l : list A) (body : A -> S -> M S) (s : S) :
  (forall x s', traced (body x s') fail_stop) -> traced (for_each l body s) fail_stop.
Proof. apply (tp_for_each (@fail_stop) fs_nil fs_seq fs_raise). Qed.

Create HintDb fail_stop.

Ltac fs_step :=
  lazymatch goal with
  | |- traced (mret _) _ => apply fs_ret
  | |- traced (lift _) _ => apply fs_lift
  | |- traced (call _ _) _ => apply fs_call; intros [?|?]; reflexivity
  | |- traced (read_json _ _) _ => apply fs_call; intros [?|?]; reflexivity
  | |- traced (for_each _ _ _) _ => apply fs_for_each; intros
  | |- traced (_ ≫= _) _ => apply fs_bind; [|intros ?]
  | |- traced (match ?x with _ => _ end) _ => destruct x
  | |- traced _ _ => solve [auto with fail_stop]
  end.

Ltac fs_auto := repeat fs_step.

Lemma load_sae_model_fs (w : world) (config : pyval) :
  traced (load_sae_model w config) fail_stop.
Proof. unfold load_sae_model. fs_auto. Qed.
#[local] Hint Resolve load_sae_model_fs : fail_stop.

Lemma load_sae_steer_fs (w : world) (path : string) :
  traced (load_sae_steer w path) fail_stop.
Proof. unfold load_sae_steer. fs_auto. Qed.
#[local] Hint Resolve load_sae_steer_fs : fail_stop.

Lemma load_adapter_and_target_fs (w : world) (path : string) (big_model : bool) :
  traced (load_adapter_and_target w path big_model) fail_stop.
Proof. unfold load_adapter_and_target. fs_auto. Qed.
#[local] Hint Resolve load_adapter_and_target_fs : fail_stop.

Lemma load_optimised_steer_fs (w : world) (path : string) (big_model : bool) :
  traced (load_optimised_steer w path big_model) fail_stop.
Proof. unfold load_optimised_steer. fs_auto. Qed.
#[local] Hint Resolve load_optimised_steer_fs : fail_stop.

Lemma load_pinv_steer_fs (w : world) (path : string) (big_model : bool) :
  traced (load_pinv_steer w path big_model) fail_stop.
Proof. unfold load_pinv_steer. fs_auto. Qed.
#[local] Hint Resolve load_pinv_steer_fs : fail_stop.

Lemma plot_fs (w : world) path coherence score product scales method name :
  traced (plot w path coherence score product scales method name) fail_stop.
Proof. unfold plot. fs_auto. Qed.
#[local] Hint Resolve plot_fs : fail_stop.

Lemma sweep_step_fs (w : world) steer hp prompt criteria scale acc :
  traced (sweep_step w steer hp prompt criteria scale acc) fail_stop.
Proof. unfold sweep_step. fs_auto. Qed.
#[local] Hint Resolve sweep_step_fs : fail_stop.

Lemma analyse_steer_fs (w : world) default_prompt steer hp path method :
  traced (analyse_steer w default_prompt steer hp path method) fail_stop.
Proof. unfold analyse_steer. fs_auto. Qed.
#[local] Hint Resolve analyse_steer_fs : fail_stop.

Lemma act_steer_fs (w : world) (path : string) : traced (act_steer w path) fail_stop.
Proof. unfold act_steer. fs_auto. Qed.
#[local] Hint Resolve act_steer_fs : fail_stop.

Lemma load_steer_fs (w : world) big_model m path :
  traced (load_steer w big_model m path) fail_stop.
Proof. unfold load_steer. fs_auto. Qed.
#[local] Hint Resolve load_steer_fs : fail_stop.

Lemma run_method_fs (w : world) default_prompt big_model path m acc :
  traced (run_method w default_prompt big_model path m acc) fail_stop.
Proof. unfold run_method. fs_auto. Qed.
#[local] Hint Resolve run_method_fs : fail_stop.

Lemma sweep_over_fs (w : world) default_prompt big_model paths :
  traced (sweep_over w default_prompt big_model paths) fail_stop.
Proof. unfold sweep_over. fs_auto. Qed.

Lemma fail_stop_failed_last {A} (r : res A) (t1 t2 : list event) (e : event) (x : exn) :
  fail_stop r (t1 ++ e :: t2)%list -> failed e = Some x -> t2 = [] /\ r = Raise x.
Proof.
  intros Hfs He.
  assert (Hdirty : ~ clean (t1 ++ e :: t2)%list).
  { intros Hc. apply Forall_app in Hc. destruct Hc as (_ & Hc).
    apply Forall_cons_1 in Hc. destruct Hc as (Hc & _). congruence. }
  destruct r as [a|y]; simpl in Hfs; [contradiction|].
  destruct Hfs as [Hc|(t & e' & Heq & Hc & He')]; [contradiction|].
  destruct t2 as [|z t2 _] using rev_ind.
  - apply app_inj_tail in Heq. destruct Heq as (_ & ->). split; [reflexivity | congruence].
  - exfalso. rewrite app_comm_cons, app_assoc in Heq. apply app_inj_tail in Heq.
    destruct Heq as (<- & _). apply Forall_app in Hc. destruct Hc as (_ & Hc).
    apply Forall_cons_1 in Hc. destruct Hc as (Hc & _). congruence.
Qed.

Lemma failed_write_failed (e : event) (x : exn) : failed_write e = Some x -> failed e = Some x.
Proof. destruct e; simpl; congruence. Qed.

(** C7, as the code has it.  A write that fails is the last thing the
    sweep does: the run ends with that exception, so that no later method,
    configuration or run-wide file is processed. *)
Theorem failed_write_ends_the_sweep (w : world) (default_prompt : option pyval)
    (big_model : bool) (h : history) (r : res unit) (t1 t2 : list event) (e : event)
    (x : exn) :
  sweep w default_prompt big_model h = (r, (h ++ t1 ++ e :: t2)%list) ->
  failed_write e = Some x ->
  t2 = [] /\ r = Raise x.
Proof.
  intros E He. unfold sweep in E.
  destruct (traced_run _ _ _ _ _ (sweep_over_fs w default_prompt big_model _) E)
    as (t & Ht & Hfs).
  apply app_inv_head in Ht. subst t.
  eapply fail_stop_failed_last; [exact Hfs | now apply failed_write_failed].
Qed.

Lemma failed_write_ends_the_sweep_witness :
  fst (sweep full_disk_world (Some (PStr "I think")) true []) =
  Raise (OSError "steer_cfgs/gemma2-9b/anger/generated_texts_ActSteer.json").
Proof.
  pose (run := sweep full_disk_world (Some (PStr "I think")) true []).
  apply (failed_write_ends_the_sweep full_disk_world (Some (PStr "I think")) true []
           (fst run) (removelast (snd run)) []
           (List.last (snd run) (EvLoadStateDict None))).
  - vm_compute. reflexivity.
  - vm_compute. reflexivity.
Defined.

(** C7, as the spec has it, fails: on a disk that refuses the generated
    texts only writes fail, yet the run stops in the first of nine
    configurations. *)
Lemma write_failure_aborts_later_configurations :
  ~ sweep_survives_write_failures.
Proof.
  intros H. specialize (H full_disk_world (Some (PStr "I think")) true).
  assert (Hw : only_writes_fail (snd (sweep full_disk_world (Some (PStr "I think")) true []))).
  { vm_compute. repeat (constructor; [first [left; reflexivity | right; discriminate]|]).
    constructor. }
  apply H in Hw. vm_compute in Hw. discriminate Hw.
Qed.

(** *** Every call of a run satisfies a predicate *)

Section Every.

Variable P : event -> Prop.

Lemma every_nil A (r : res A) : every P A r [].
Proof. constructor. Qed.

Lemma every_seq A B (a : A) (r : res B) (t1 t2 : list event) :
  every P A (Ok a) t1 -> every P B r t2 -> every P B r (t1 ++ t2)%list.
Proof. apply Forall_app_2. Qed.

Lemma every_raise A B (e : exn) (t : list event) :
  every P A (Raise e) t -> every P B (Raise e) t.
Proof. trivial. Qed.

Lemma every_call {A} (oracle : history -> res A) (ev : res A -> event) :
  (forall r, P (ev r)) -> traced (call oracle ev) (every P A).
Proof. intros Hev. apply traced_call. intros r. constructor; [apply Hev | constructor]. Qed.

Lemma every_ret {A} (a : A) : traced (mret a) (every P A).
Proof. apply (tp_ret (every P) every_nil). Qed.

Lemma every_lift {A} (r : res A) : traced (lift r) (every P A).
Proof. apply (tp_lift (every P) every_nil). Qed.

Lemma every_bind {A B} (m : M A) (k : A -> M B) :
  traced m (every P A) -> (forall a, traced (k a) (every P B)) ->
  traced (m ≫= k) (every P B).
Proof. apply (tp_bind (every P) every_seq every_raise). Qed.

Lemma every_for_each {A S} (l : list A) (body : A -> S -> M S) (s : S) :
  (forall x s', traced (body x s') (every P S)) -> traced (for_each l body s) (every P S).
Proof. apply (tp_for_each (every P) every_nil every_seq every_raise). Qed.

End Every.

Ltac every_step :=
  lazymatch goal with
  | |- traced (mret _) _ => apply every_ret
  | |- traced (lift _) _ => apply every_lift
  | |- traced (call _ _) _ => apply every_call; intros [?|?]; simpl; auto
  | |- traced (for_each _ _ _) _ => apply every_for_each; intros
  | |- traced (_ ≫= _) _ => apply every_bind; [|intros ?]
  | |- traced (match ?x with _ => _ end) _ => destruct x
  end.

(** ** Prompt selection *)

Lemma string_app_inv_head (a b c : string) : a ++ b = a ++ c -> b = c.
Proof. induction a as [|ch a IH]; simpl; [trivial | intros [= E]; now apply IH]. Qed.

Lemma path_join_prefix (a b : string) : exists p, forall c, path_join a c = p ++ c.
Proof.
  unfold path_join. destruct (String.eqb a "").
  - exists "". reflexivity.
  - destruct (ends_with_slash a).
    + exists a. reflexivity.
    + exists (a ++ "/"). intros c. clear.
      induction a as [|ch a IH]; [reflexivity | exact (f_equal (String ch) IH)].
Qed.

Lemma criteria_is_not_prompts (path : string) :
  path_join path "criteria.json" <> path_join path "prompts.json".
Proof.
  destruct (path_join_prefix path "") as (p & Hp). rewrite !Hp.
  intros E. apply string_app_inv_head in E. discriminate E.
Qed.

Lemma uses_prompt_generations (prompt : pyval) (t : list event) :
  Forall (uses_prompt prompt) t ->
  json_reads t = [] /\ Forall (fun g => snd g = prompt) (generations t).
Proof.
  induction 1 as [|e t He _ (IH1 & IH2)]; [split; [reflexivity | constructor]|].
  destruct e; simpl in *; try contradiction; try (split; assumption).
  split; [assumption | constructor; assumption].
Qed.

(** two properties of the runs of [m] hold together *)
Lemma traced_conj {A} (m : M A) (Q1 Q2 : res A -> list event -> Prop) :
  traced m Q1 -> traced m Q2 -> traced m (fun r t => Q1 r t /\ Q2 r t).
Proof.
  intros H1 H2 h. destruct (H1 h) as (t1 & Ht1 & Hq1). destruct (H2 h) as (t2 & Ht2 & Hq2).
  exists t1. split; [exact Ht1 | split; [exact Hq1|]].
  rewrite Ht1 in Ht2. apply app_inv_head in Ht2. now subst t2.
Qed.

(** the first call of [m] is the first call of [m] followed by [k] *)
Lemma first_call_bind {A B} (m : M A) (k : A -> M B) (F : event -> Prop) :
  traced m (fun _ t => exists e tl, t = e :: tl /\ F e) ->
  (forall a, traced (k a) (every (fun _ => True) B)) ->
  traced (m ≫= k) (fun _ t => exists e tl, t = e :: tl /\ F e).
Proof.
  intros Hm Hk. eapply traced_bind; [exact Hm | trivial |].
  intros a t1 (e & tl & -> & He). eapply traced_weaken; [apply Hk|].
  intros r t2 _. now exists e, (tl ++ t2)%list.
Qed.

(** Once the prompt is chosen, the first thing [analyse_steer] does to the
    outside is to ask for the batch of scale 0, with that prompt. *)
Lemma sweep_begins_with_the_prompt (w : world) (steer : tensor) (hp prompt criteria : pyval)
    {B} (k : sweep_lists -> M B) :
  (forall acc, traced (k acc) (every (fun _ => True) B)) ->
  traced (for_each (py_range 0 320 20) (sweep_step w steer hp prompt criteria) empty_lists ≫= k)
    (fun _ t => exists e tl, t = e :: tl /\
                  exists reply, e = EvGenerate steer hp prompt 0 256 reply).
Proof.
  intros Hk. apply first_call_bind; [|exact Hk].
  change (py_range 0 320 20) with (0 :: List.tl (py_range 0 320 20)). cbn [for_each].
  apply first_call_bind.
  - unfold sweep_step. apply traced_call_bind. intros [texts|x].
    + apply (traced_weaken _ (every (fun _ => True) _)); [repeat every_step|].
      intros r t _. eexists _, t. split; [reflexivity | eexists; reflexivity].
    + eexists _, []. split; [reflexivity | eexists; reflexivity].
  - intros acc. apply every_for_each. intros scale acc'. unfold sweep_step. repeat every_step.
Qed.

(** C8.  [analyse_steer] first reads [criteria.json].  With a default
    prompt set it reads no other file, [prompts.json] in particular, and
    the default is the prompt of every request, the first of which is made
    at once and of which a completed run makes sixteen.  With no default
    the next thing it does is to read [prompts.json]; the prompt of every
    request is element 0 of what was read, and without it no request is
    made. *)
Theorem prompt_selection (w : world) (default_prompt : option pyval) (steer : tensor)
    (hp : pyval) (path method : string) (h h' : history)
    (r : res (summary * graph_data)) :
  analyse_steer w default_prompt steer hp path method h = (r, h') ->
  exists reply t,
    h' = (h ++ EvReadJson (path_join path "criteria.json") reply :: t)%list /\
    match reply with
    | Raise x => t = [] /\ r = Raise x
    | Ok criteria =>
        match default_prompt with
        | Some p =>
            ~ In (path_join path "prompts.json")
                 (json_reads (EvReadJson (path_join path "criteria.json") reply :: t)) /\
            prompt_used steer hp criteria p r t
        | None =>
            exists reply_p t',
              t = EvReadJson (path_join path "prompts.json") reply_p :: t' /\
              match (prompts ← reply_p; py_getitem_int prompts 0) with
              | Ok prompt => prompt_used steer hp criteria prompt r t'
              | Raise x => t' = [] /\ r = Raise x
              end
        end
    end.
Proof.
  intros E.
  pose (used := fun (criteria prompt : pyval) (t : list event) =>
    Forall (uses_prompt prompt) t /\
    forall c0 name,
      py_getitem_int criteria 0 = Ok c0 -> py_get c0 "name" (PStr "Unknown") = Ok name ->
      exists reply tl, t = EvGenerate steer hp prompt 0 256 reply :: tl).
  assert (Hshape : traced (analyse_steer w default_prompt steer hp path method)
    (fun r t => exists reply t1,
       t = EvReadJson (path_join path "criteria.json") reply :: t1 /\
       match reply with
       | Raise x => t1 = [] /\ r = Raise x
       | Ok criteria =>
           match default_prompt with
           | Some p => used criteria p t1
           | None =>
               exists reply_p t',
                 t1 = EvReadJson (path_join path "prompts.json") reply_p :: t' /\
                 match (prompts ← reply_p; py_getitem_int prompts 0) with
                 | Ok prompt => used criteria prompt t'
                 | Raise x => t' = [] /\ r = Raise x
                 end
           end
       end)).
  { assert (Hrest : forall criteria prompt,
      traced
        (c0 ← lift (py_getitem_int criteria 0);
         steering_goal_name ← lift (py_get c0 "name" (PStr "Unknown"));
         acc ← for_each (py_range 0 320 20) (sweep_step w steer hp prompt criteria) empty_lists;
         max_product ← lift (py_max (zip_with Qmult (l_avg_coh acc) (l_avg_score acc)));
         max_index ←
           lift (py_list_index (zip_with Qmult (l_avg_coh acc) (l_avg_score acc))
                               max_product);
         max_scale ← lift (list_at (py_range 0 320 20) max_index);
         _ ← call (fun h => write_json w h
                              (path_join path ("generated_texts_" ++ method ++ ".json"))
                              (Texts (l_all_texts acc)))
                  (logged (EvWriteJson
                             (path_join path ("generated_texts_" ++ method ++ ".json"))
                             (Texts (l_all_texts acc))));
         _ ← plot w path (l_avg_coh acc) (l_avg_score acc)
                  (zip_with Qmult (l_avg_coh acc) (l_avg_score acc)) (py_range 0 320 20)
                  method steering_goal_name;
         mret ({| s_path := path; s_method := method;
                  s_steering_goal_name := steering_goal_name;
                  max_product := max_product; scale_at_max := max_scale |},
               {| g_path := path; g_method := method;
                  g_steering_goal_name := steering_goal_name;
                  scales := py_range 0 320 20; avg_coherence := l_avg_coh acc;
                  avg_score := l_avg_score acc;
                  product := zip_with Qmult (l_avg_coh acc) (l_avg_score acc);
                  individual_scores := l_individual_scores acc;
                  individual_coherences := l_individual_coherences acc;
                  individual_products := l_individual_products acc |}))
        (fun _ t => used criteria prompt t)).
    { intros criteria prompt. apply traced_conj.
      - apply (traced_weaken _ (every (uses_prompt prompt) _)); [|trivial].
        unfold sweep_step, plot. repeat every_step.
      - apply traced_lift_bind. destruct (py_getitem_int criteria 0) as [c0|x]; [|discriminate].
        apply traced_lift_bind.
        destruct (py_get c0 "name" (PStr "Unknown")) as [name|x] eqn:En.
        + eapply traced_weaken.
          * apply sweep_begins_with_the_prompt. intros acc. unfold plot. repeat every_step.
          * intros r0 t (e & tl & -> & reply & ->) c0' name' _ _. now exists reply, tl.
        + intros c0' name' [= <-] En'. rewrite En in En'. discriminate En'. }
    unfold analyse_steer, read_json. apply traced_call_bind. intros [criteria|x].
    2:{ exists (Raise x), []. repeat split. }
    destruct default_prompt as [p|].
    - eapply traced_bind with (Q1 := fun r t => r = Ok p /\ t = []).
      + apply traced_ret. now split.
      + intros e t (Hr & _). discriminate Hr.
      + intros a t1 ([= ->] & ->). eapply traced_weaken; [apply (Hrest criteria p)|].
        intros r0 t Ht. now exists (Ok criteria), t.
    - eapply traced_bind with
        (Q1 := fun r t => exists reply_p,
                 t = [EvReadJson (path_join path "prompts.json") reply_p] /\
                 r = (prompts ← reply_p; py_getitem_int prompts 0)).
      + apply traced_call_bind. intros [prompts|x].
        * apply traced_lift. now exists (Ok prompts).
        * now exists (Raise x).
      + intros e t (reply_p & -> & Hr). exists (Ok criteria). eexists. split; [reflexivity|].
        exists reply_p, []. split; [reflexivity|]. rewrite <- Hr. now split.
      + intros prompt t1 (reply_p & -> & Hr).
        eapply traced_weaken; [apply (Hrest criteria prompt)|].
        intros r0 t Ht. exists (Ok criteria). eexists. split; [reflexivity|].
        exists reply_p, t. split; [reflexivity|]. rewrite <- Hr. exact Ht. }
  destruct (traced_run _ _ _ _ _ Hshape E) as (t & -> & reply & t1 & -> & Hmatch).
  exists reply, t1. split; [reflexivity|].
  destruct reply as [criteria|x]; [|exact Hmatch].
  assert (Hdone : forall a, r = Ok a ->
    exists prompt its t_read t_write,
      EvReadJson (path_join path "criteria.json") (Ok criteria) :: t1 =
        (t_read ++ flat_map (iteration_events steer hp prompt) its ++ t_write)%list /\
      match default_prompt with
      | Some p =>
          prompt = p /\ exists c, t_read = [EvReadJson (path_join path "criteria.json") (Ok c)]
      | None =>
          exists c prompts,
            py_getitem_int prompts 0 = Ok prompt /\
            t_read = [EvReadJson (path_join path "criteria.json") (Ok c);
                      EvReadJson (path_join path "prompts.json") (Ok prompts)]
      end /\
      generations (flat_map (iteration_events steer hp prompt) its ++ t_write) =
        map (fun scale => (scale, 256, prompt)) (py_range 0 320 20)).
  { intros [s gd] ->. apply analyse_steer_ok_inv in E.
    destruct E as (c & prompt & its & mi & t_read & t_write & Hread & Hsc & _ & Hh & Hgw & _).
    apply app_inv_head in Hh. exists prompt, its, t_read, t_write. split; [exact Hh|].
    split.
    - destruct default_prompt; [destruct Hread as (-> & ->); split; [reflexivity | now exists c]|].
      destruct Hread as (prompts & Hp & ->). now exists c, prompts.
    - now rewrite generations_app, generations_iterations, Hsc, Hgw, app_nil_r. }
  destruct default_prompt as [p|].
  - destruct Hmatch as (Huses & Hfirst). split.
    + pose proof (uses_prompt_generations _ _ Huses) as (Hreads & _).
      cbn [json_reads flat_map app]. fold (json_reads t1). rewrite Hreads.
      intros [Hc|[]]. now apply criteria_is_not_prompts in Hc.
    + split; [exact Huses | split; [exact Hfirst|]].
      intros a Ha. destruct (Hdone a Ha) as (prompt & its & t_read & t_write & Hh & Hr & Hg).
      destruct Hr as (-> & c & ->). injection Hh as _ ->. exact Hg.
  - destruct Hmatch as (reply_p & t' & -> & Hm). exists reply_p, t'. split; [reflexivity|].
    destruct (prompts ← reply_p; py_getitem_int prompts 0) as [prompt|x] eqn:Ep; [|exact Hm].
    destruct Hm as (Huses & Hfirst). split; [exact Huses | split; [exact Hfirst|]].
    intros a Ha. destruct (Hdone a Ha) as (prompt' & its & t_read & t_write & Hh & Hr & Hg).
    destruct Hr as (c & prompts & Hp & ->). injection Hh as _ -> ->.
    simpl in Ep. rewrite Hp in Ep. injection Ep as <-. exact Hg.
Qed.

Lemma prompt_selection_witness :
  (exists r h',
     analyse_steer demo_world (Some (PStr "I think")) NonFinite
       (PStr "blocks.12.hook_resid_post") "cfg" "SAE" [] = (r, h') /\
     exists reply t,
       h' = ([] ++ EvReadJson (path_join "cfg" "criteria.json") reply :: t)%list /\
       match reply with
       | Raise x => t = [] /\ r = Raise x
       | Ok criteria =>
           ~ In (path_join "cfg" "prompts.json")
                (json_reads (EvReadJson (path_join "cfg" "criteria.json") reply :: t)) /\
           prompt_used NonFinite (PStr "blocks.12.hook_resid_post") criteria
                       (PStr "I think") r t
       end) /\
  (exists r h',
     analyse_steer demo_world None NonFinite
       (PStr "blocks.12.hook_resid_post") "cfg" "SAE" [] = (r, h') /\
     exists reply t,
       h' = ([] ++ EvReadJson (path_join "cfg" "criteria.json") reply :: t)%list /\
       match reply with
       | Raise x => t = [] /\ r = Raise x
       | Ok criteria =>
           exists reply_p t',
             t = EvReadJson (path_join "cfg" "prompts.json") reply_p :: t' /\
             match (prompts ← reply_p; py_getitem_int prompts 0) with
             | Ok prompt =>
                 prompt_used NonFinite (PStr "blocks.12.hook_resid_post") criteria prompt r t'
             | Raise x => t' = [] /\ r = Raise x
             end
       end).
Proof.
  split.
  - eassert (E : analyse_steer demo_world (Some (PStr "I think")) NonFinite
                   (PStr "blocks.12.hook_resid_post") "cfg" "SAE" [] = (_, _))
      by (vm_compute; reflexivity).
    eexists _, _. split; [exact E|].
    exact (prompt_selection _ _ _ _ _ _ _ _ _ E).
  - eassert (E : analyse_steer demo_world None NonFinite
                   (PStr "blocks.12.hook_resid_post") "cfg" "SAE" [] = (_, _))
      by (vm_compute; reflexivity).
    eexists _, _. split; [exact E|].
    exact (prompt_selection _ _ _ _ _ _ _ _ _ E).
Defined.

(** The two branches on the demonstration world. *)
Example default_prompt_skips_prompts_file :
  json_reads (snd (analyse_steer demo_world (Some (PStr "I think")) NonFinite
                     (PStr "blocks.12.hook_resid_post") "cfg" "SAE" [])) =
  ["cfg/criteria.json"].
Proof. vm_compute. reflexivity. Qed.

Example unset_prompt_reads_prompts_file :
  json_reads (snd (analyse_steer demo_world None NonFinite
                     (PStr "blocks.12.hook_resid_post") "cfg" "SAE" [])) =
  ["cfg/criteria.json"; "cfg/prompts.json"].
Proof. vm_compute. reflexivity. Qed.

(** ** Norms *)

Local Open Scope R_scope.

Lemma dot_self_nonneg (v : list R) : 0 <= dot v v.
Proof.
  unfold dot. induction v as [|x v IH]; simpl; [lra|].
  pose proof (Rle_0_sqr x) as Hx. unfold Rsqr in Hx. lra.
Qed.

Lemma dot_self_div (v : list R) (d : R) :
  d <> 0 ->
  dot (map (fun x => x / d) v) (map (fun x => x / d) v) = dot v v / (d * d).
Proof.
  intros Hd. unfold dot. induction v as [|x v IH]; simpl.
  - field. exact Hd.
  - rewrite IH. field. exact Hd.
Qed.

Lemma norm_sqr (v : list R) : norm v * norm v = dot v v.
Proof. apply sqrt_sqrt, dot_self_nonneg. Qed.

(** dividing a vector by its non-zero norm gives a unit vector *)
Lemma norm_div_norm (v : list R) :
  norm v <> 0 -> norm (map (fun x => x / norm v) v) = 1.
Proof.
  intros Hn. unfold norm at 1. rewrite dot_self_div by exact Hn.
  rewrite norm_sqr.
  assert (Hd : dot v v <> 0).
  { intros E. apply Hn. unfold norm. rewrite E. apply sqrt_0. }
  replace (dot v v / dot v v) with 1 by (field; exact Hd). apply sqrt_1.
Qed.

Lemma vdiv_defined (v : list R) (d : R) :
  d <> 0 -> vdiv v d = Fin (map (fun x => x / d) v).
Proof.
  intros Hd. unfold vdiv. destruct v as [|x v]; [reflexivity|].
  destruct (Req_dec_T d 0) as [E|_]; [contradiction | reflexivity].
Qed.

Lemma vdiv_fin_inv (v u : list R) (d : R) :
  vdiv v d = Fin u -> u <> [] -> d <> 0 /\ u = map (fun x => x / d) v.
Proof.
  unfold vdiv. destruct v as [|x v]; [intros [= <-] H; contradiction|].
  destruct (Req_dec_T d 0) as [E|Hd]; [discriminate|]. intros [= <-] _. now split.
Qed.

Lemma vdiv_norm_unit (v u : list R) : vdiv v (norm v) = Fin u -> u <> [] -> norm u = 1.
Proof.
  intros E Hu. destruct (vdiv_fin_inv _ _ _ E Hu) as (Hn & ->). now apply norm_div_norm.
Qed.

Lemma normalise_unit (t : tensor) (u : list R) : normalise t = Fin u -> u <> [] -> norm u = 1.
Proof. destruct t as [v|]; simpl; [apply vdiv_norm_unit | discriminate]. Qed.

(** [single_step_steer] ends with a normalisation. *)
Lemma single_step_steer_unit (adapter : adapter) (target : list R) (bias_scale : R)
    (u : list R) :
  single_step_steer adapter target bias_scale = Fin u -> u <> [] -> norm u = 1.
Proof.
  unfold single_step_steer.
  destruct (vdiv (matvec (W adapter) target) (norm (matvec (W adapter) target)));
    simpl; [|discriminate].
  destruct (vdiv (matvec (W adapter) (b adapter)) (norm (matvec (W adapter) (b adapter))));
    simpl; [|discriminate].
  apply vdiv_norm_unit.
Qed.

(** [single_step_steer] does return a unit vector when none of its three
    normalisations divides by zero. *)
Lemma single_step_steer_defined (adapter : adapter) (target : list R) (bias_scale : R) :
  let steer_vec := matvec (W adapter) target in
  let bias_vec := matvec (W adapter) (b adapter) in
  let steer := vsub (map (fun x => x / norm steer_vec) steer_vec)
                    (vscale bias_scale (map (fun x => x / norm bias_vec) bias_vec)) in
  norm steer_vec <> 0 -> norm bias_vec <> 0 -> norm steer <> 0 ->
  exists u, single_step_steer adapter target bias_scale = Fin u /\ norm u = 1.
Proof.
  intros steer_vec bias_vec steer H1 H2 H3. unfold single_step_steer.
  fold steer_vec bias_vec. rewrite (vdiv_defined _ _ H1). simpl.
  rewrite (vdiv_defined _ _ H2). simpl. fold steer. rewrite (vdiv_defined _ _ H3).
  eexists. split; [reflexivity | now apply norm_div_norm].
Qed.

Local Close Scope R_scope.

(** ** The loaders *)

Lemma act_steer_ok_inv (w : world) (path : string) (h h' : history) (t : tensor) (hp : pyval) :
  act_steer w path h = (Ok (t, hp), h') -> exists raw, t = normalise raw.
Proof.
  unfold act_steer. intros E.
  apply bind_ok_inv in E. destruct E as ([[[pos neg] val] layer] & h1 & _ & E).
  apply bind_ok_inv in E. destruct E as (raw & h2 & _ & E).
  apply ret_ok_inv in E. destruct E as ([= -> _] & _). now exists raw.
Qed.

Lemma load_sae_steer_ok_inv (w : world) (path : string) (h h' : history)
    (t : tensor) (hp layer : pyval) :
  load_sae_steer w path h = (Ok (t, hp, layer), h') ->
  exists sae features vectors vec,
    feature_rows w (W_dec sae) features = Ok vectors /\
    stack_sum vectors = Ok vec /\ t = normalise (Fin vec).
Proof.
  unfold load_sae_steer. intros E.
  apply bind_ok_inv in E. destruct E as (config & h1 & _ & E).
  apply bind_ok_inv in E. destruct E as (sae & h2 & _ & E).
  apply bind_ok_inv in E. destruct E as (f0 & h3 & _ & E).
  apply bind_ok_inv in E. destruct E as (features & h4 & _ & E).
  apply bind_ok_inv in E. destruct E as (vectors & h5 & Hv & E). apply lift_ok_inv in Hv as (Hv & _).
  apply bind_ok_inv in E. destruct E as (vec & h6 & Hs & E). apply lift_ok_inv in Hs as (Hs & _).
  apply bind_ok_inv in E. destruct E as (hp' & h7 & _ & E).
  apply bind_ok_inv in E. destruct E as (layer' & h8 & _ & E).
  apply ret_ok_inv in E. destruct E as ([= -> _ _] & _).
  now exists sae, features, vectors, vec.
Qed.

Lemma load_optimised_steer_ok_inv (w : world) (path : string) (big_model : bool)
    (h h' : history) (t : tensor) (hp layer : pyval) :
  load_optimised_steer w path big_model h = (Ok (t, hp, layer), h') ->
  exists config adapter target,
    load_adapter_and_target w path big_model h = (Ok (config, layer, adapter, target), h') /\
    py_getitem config "hp" = Ok hp /\
    t = single_step_steer adapter target 1.
Proof.
  unfold load_optimised_steer. intros E.
  apply bind_ok_inv in E. destruct E as ([[[config layer'] adapter] target] & h1 & Hl & E).
  apply bind_ok_inv in E. destruct E as (hp' & h2 & Hhp & E). apply lift_ok_inv in Hhp as (Hhp & ->).
  apply ret_ok_inv in E. destruct E as ([= -> -> ->] & ->).
  now exists config, adapter, target.
Qed.


(** C1, as the code has it.  The vector of the activation-difference, the
    SAE-feature and the optimised-adapter method has unit L2 norm whenever
    it is a finite, non-empty vector. *)
Theorem loaded_vector_has_unit_norm (w : world) (big_model : bool) (m : method)
    (path : string) (h h' : history) (v : list R) (hp : pyval) :
  m <> PinverseSteer ->
  load_steer w big_model m path h = (Ok (Fin v, hp), h') ->
  v <> [] ->
  norm v = 1%R.
Proof.
  intros Hm E Hv. destruct m; simpl in E; [| | |contradiction].
  - apply act_steer_ok_inv in E. destruct E as (raw & E).
    exact (normalise_unit _ _ (eq_sym E) Hv).
  - apply bind_ok_inv in E. destruct E as ([[t hp'] layer] & h1 & El & E).
    apply ret_ok_inv in E. destruct E as ([= <- <-] & ->).
    apply load_sae_steer_ok_inv in El. destruct El as (_ & _ & _ & vec & _ & _ & E).
    exact (normalise_unit _ _ (eq_sym E) Hv).
  - apply bind_ok_inv in E. destruct E as ([[t hp'] layer] & h1 & El & E).
    apply ret_ok_inv in E. destruct E as ([= <- <-] & ->).
    apply load_optimised_steer_ok_inv in El. destruct El as (_ & ad & target & _ & _ & E).
    exact (single_step_steer_unit _ _ _ _ (eq_sym E) Hv).
Qed.

Lemma sqrt_25 : sqrt (3 * 3 + (4 * 4 + 0)) = 5%R.
Proof.
  replace (3 * 3 + (4 * 4 + 0))%R with (5 * 5)%R by lra. apply sqrt_square. lra.
Qed.

Lemma loaded_vector_has_unit_norm_witness :
  exists v hp h',
    load_steer act_world true ActSteer "steer_cfgs/gemma2-9b/anger" [] = (Ok (Fin v, hp), h')
    /\ v <> [] /\ norm v = 1%R.
Proof.
  assert (Hn : normalise (Fin [3%R; 4%R]) = Fin [(3 / norm [3; 4])%R; (4 / norm [3; 4])%R]).
  { unfold normalise. rewrite vdiv_defined; [reflexivity|].
    unfold norm, dot. simpl. rewrite sqrt_25. lra. }
  assert (E : load_steer act_world true ActSteer "steer_cfgs/gemma2-9b/anger" [] =
              (Ok (Fin [(3 / norm [3; 4])%R; (4 / norm [3; 4])%R],
                   PStr "blocks.12.hook_resid_post"),
               [EvLoadActSteer "steer_cfgs/gemma2-9b/anger" None;
                EvActivationSteering (PInt 12) None])).
  { rewrite <- Hn. reflexivity. }
  eexists _, _, _. split; [exact E|].
  assert (Hne : [(3 / norm [3; 4])%R; (4 / norm [3; 4])%R] <> []) by discriminate.
  split; [exact Hne|].
  apply (loaded_vector_has_unit_norm act_world true ActSteer _ _ _ _ _
           ltac:(discriminate) E Hne).
Defined.

(** ** The pseudo-inverse method *)

Lemma norm_singleton (x : R) : norm [x] = Rabs x.
Proof.
  unfold norm, dot. simpl. replace (x * x + 0)%R with (Rsqr x) by (unfold Rsqr; lra).
  apply sqrt_Rsqr_abs.
Qed.

Lemma norm_two : norm [2%R] = 2%R.
Proof. rewrite norm_singleton. apply Rabs_right. lra. Qed.

(** 1/2 is the pseudo-inverse of the 1 x 1 matrix (2) *)
Lemma pinv1_two : is_pinv (W adapter_two) (linalg_pinv adapter_world (W adapter_two)).
Proof.
  unfold is_pinv. simpl. repeat split.
  - repeat constructor.
  - unfold matmul, vecmat, row_combination, vscale, vadd, zeros. simpl. do 2 f_equal. field.
  - unfold matmul, vecmat, row_combination, vscale, vadd, zeros. simpl. do 2 f_equal. field.
Qed.

Lemma adapter_world_target :
  load_adapter_and_target adapter_world "steer_cfgs/gemma2-9b/anger" true [] =
  (Ok (adapter_config, PInt 20, adapter_two, [2%R]),
   [EvReadJson "steer_cfgs/gemma2-9b/anger/optimised_steer.json" (Ok adapter_config);
    EvFromPretrained (PStr "gemma-scope-9b-pt-res") (PInt 20) None;
    EvTorchLoad "adapter_9b_layer_20.pt" None]).
Proof. reflexivity. Qed.

Lemma pinverse_steer_two :
  pinverse_steer adapter_world adapter_two [2%R] 1 =
  Fin [(/ 2 * (2 / norm [2] * 1 - 0) + 0)%R].
Proof.
  unfold pinverse_steer. rewrite vdiv_defined; [reflexivity|]. rewrite norm_two. lra.
Qed.

Lemma adapter_world_pinv_steer :
  load_steer adapter_world true PinverseSteer "steer_cfgs/gemma2-9b/anger" [] =
  (Ok (Fin [(/ 2 * (2 / norm [2] * 1 - 0) + 0)%R], PStr "blocks.20.hook_resid_post"),
   [EvReadJson "steer_cfgs/gemma2-9b/anger/optimised_steer.json" (Ok adapter_config);
    EvFromPretrained (PStr "gemma-scope-9b-pt-res") (PInt 20) None;
    EvTorchLoad "adapter_9b_layer_20.pt" None]).
Proof.
  unfold load_steer, load_pinv_steer. rewrite !bind_run, adapter_world_target.
  rewrite pinverse_steer_two. reflexivity.
Qed.

(** C1, as the spec has it, fails for the pseudo-inverse method: with
    weight (2), bias (0) and feature 0 at scale 2 the loaded vector is
    (1/2), of norm 1/2. *)
Lemma pinverse_vector_not_unit_norm :
  exists v hp h',
    load_steer adapter_world true PinverseSteer "steer_cfgs/gemma2-9b/anger" [] =
      (Ok (Fin v, hp), h')
    /\ is_pinv (W adapter_two) (linalg_pinv adapter_world (W adapter_two))
    /\ pinverse_steer adapter_world adapter_two [2%R] 1 = Fin v
    /\ norm v = (1 / 2)%R
    /\ ~ unit_norm (Fin v).
Proof.
  eexists _, _, _. split; [apply adapter_world_pinv_steer|].
  split; [apply pinv1_two | split; [apply pinverse_steer_two|]].
  assert (Hn : norm [(/ 2 * (2 / norm [2] * 1 - 0) + 0)%R] = (1 / 2)%R).
  { rewrite norm_singleton, norm_two.
    replace (/ 2 * (2 / 2 * 1 - 0) + 0)%R with (1 / 2)%R by field.
    apply Rabs_right. lra. }
  split; [exact Hn|]. simpl. rewrite Hn. lra.
Qed.

Lemma tensor_index_ok (n : nat) (z : Z) (k : nat) :
  py_index n z = Some k -> tensor_index n z = Ok k.
Proof. unfold tensor_index. now intros ->. Qed.

Lemma set_at_ok (w : world) (t : list R) (i : Z) (k : nat) (x : pyval) (r : R) :
  py_index (length t) i = Some k -> py_real x = Ok r ->
  set_at w t (PInt i) x = Ok (<[k := r]> t).
Proof.
  intros Hk Hr. unfold set_at. rewrite Hr. simpl.
  rewrite (tensor_index_ok _ _ _ Hk). reflexivity.
Qed.

Lemma fold_insert_same_length (r : R) (ks : list nat) (t : list R) :
  length (fold_left (fun t k => <[k := r]> t) ks t) = length t.
Proof.
  revert t. induction ks as [|k ks IH]; intros t; simpl; [reflexivity|].
  now rewrite IH, length_insert.
Qed.

(** An assignment never changes the size of the tensor. *)
Lemma set_at_length (w : world) (t t' : list R) (i x : pyval) :
  set_at w t i x = Ok t' -> length t' = length t.
Proof.
  unfold set_at. intros E. apply res_bind_ok_inv in E. destruct E as (r & _ & E).
  destruct i as [|[|]|z|q|s|l|d]; try discriminate E;
    try (injection E as <-; first [reflexivity | apply length_map]);
    apply res_bind_ok_inv in E; destruct E as (k & _ & [= <-]);
    first [apply length_insert | apply fold_insert_same_length].
Qed.

Lemma build_target_length (w : world) (n : nat) (items : list pyval) (target : list R) :
  build_target w n items = Ok target -> length target = n.
Proof.
  unfold build_target.
  assert (H : forall t0, length t0 = n ->
    for_res items
      (fun item target => '(ft_id, ft_scale) ← unpack2 item; set_at w target ft_id ft_scale)
      t0 = Ok target -> length target = n).
  { induction items as [|item items IH]; intros t0 Hlen E; simpl in E.
    - now injection E as <-.
    - apply res_bind_ok_inv in E. destruct E as (t1 & Hstep & E).
      apply res_bind_ok_inv in Hstep. destruct Hstep as ([ft_id ft_scale] & _ & Hset).
      apply set_at_length in Hset. apply (IH t1); [now rewrite Hset | exact E]. }
  apply H. unfold zeros. apply length_replicate.
Qed.






(** A state dict that loads has the shapes of the adapter. *)
Lemma load_state_dict_conforming (M : matrix) (sd ad : adapter) :
  load_state_dict (shape0 M) (shape1 M) sd = Ok ad ->
  ad = sd /\ rect (W ad) /\ length (b ad) = shape1 (W ad).
Proof.
  unfold load_state_dict.
  destruct (Nat.eqb (length (W sd)) (shape0 M)) eqn:HW; [|discriminate].
  destruct (forallb (fun row => Nat.eqb (length row) (shape1 M)) (W sd)) eqn:Hrows;
    [|discriminate].
  destruct (Nat.eqb (length (b sd)) (shape1 M)) eqn:Hb; [|discriminate].
  intros [= <-]. apply Nat.eqb_eq in HW, Hb.
  rewrite List.forallb_forall in Hrows.
  split; [reflexivity|].
  destruct (W sd) as [|r rows] eqn:EW.
  - split; [constructor|]. unfold shape0 in HW. simpl in HW. symmetry in HW.
    apply length_zero_iff_nil in HW. subst M. exact Hb.
  - assert (Hr : length r = shape1 M) by (apply Nat.eqb_eq, Hrows; now left).
    split.
    + unfold rect, shape1. simpl. apply List.Forall_forall. intros row Hin.
      rewrite Hr. apply Nat.eqb_eq, Hrows. exact Hin.
    + unfold shape1. simpl. now rewrite Hr.
Qed.

(** What a completed [load_adapter_and_target] did: the adapter is what
    [torch.load] returned, of the shapes of the encoder, and the target was
    built from the configured features. *)
Lemma load_adapter_and_target_ok_inv (w : world) (path : string) (big_model : bool)
    (h h' : history) (config layer : pyval) (adapter : adapter) (target : list R) :
  load_adapter_and_target w path big_model h = (Ok (config, layer, adapter, target), h') ->
  exists items h0 file,
    (f ← py_getitem config "features"; py_iter f) = Ok items /\
    build_target w (shape1 (W adapter)) items = Ok target /\
    torch_load w h0 file = Ok adapter /\
    rect (W adapter) /\ length (b adapter) = shape1 (W adapter).
Proof.
  unfold load_adapter_and_target. intros E.
  apply bind_ok_inv in E. destruct E as (config' & h1 & _ & E).
  apply bind_ok_inv in E. destruct E as (layer' & h2 & _ & E).
  apply bind_ok_inv in E. destruct E as (sae & h3 & _ & E).
  apply bind_ok_inv in E. destruct E as (sd & h4 & Hsd & E).
  apply call_ok_inv in Hsd. destruct Hsd as (Hsd & _).
  apply bind_ok_inv in E. destruct E as (ad & h5 & Had & E). apply lift_ok_inv in Had as (Had & _).
  apply bind_ok_inv in E. destruct E as (f & h6 & Hf & E). apply lift_ok_inv in Hf as (Hf & _).
  apply bind_ok_inv in E. destruct E as (items & h7 & Hi & E). apply lift_ok_inv in Hi as (Hi & _).
  apply bind_ok_inv in E. destruct E as (t & h8 & Ht & E). apply lift_ok_inv in Ht as (Ht & _).
  apply ret_ok_inv in E. destruct E as ([= -> -> -> ->] & _).
  apply load_state_dict_conforming in Had. destruct Had as (-> & Hrect & Hb).
  eexists items, _, _. split; [rewrite Hf; exact Hi|].
  split; [exact Ht | split; [exact Hsd | split; [exact Hrect | exact Hb]]].
Qed.



(** ** The pseudo-inverse solves the adapter equation *)

Local Open Scope R_scope.

Lemma vadd_length (u v : list R) : length u = length v -> length (vadd u v) = length u.
Proof. intros E. unfold vadd. rewrite length_zip_with. lia. Qed.

Lemma vscale_length (c : R) (v : list R) : length (vscale c v) = length v.
Proof. apply length_map. Qed.

Lemma zeros_length (n : nat) : length (zeros n) = n.
Proof. apply length_replicate. Qed.

Lemma vadd_zeros (n : nat) : vadd (zeros n) (zeros n) = zeros n.
Proof.
  unfold zeros. induction n as [|n IH]; simpl; [reflexivity|]. f_equal; [lra | exact IH].
Qed.

Lemma vscale_zeros (c : R) (n : nat) : vscale c (zeros n) = zeros n.
Proof.
  unfold zeros. induction n as [|n IH]; simpl; [reflexivity|]. f_equal; [lra | exact IH].
Qed.

Lemma vscale_zero (v : list R) : vscale 0 v = zeros (length v).
Proof.
  unfold zeros. induction v as [|x v IH]; simpl; [reflexivity|]. f_equal; [lra | exact IH].
Qed.

Lemma vscale_vscale (c d : R) (v : list R) : vscale c (vscale d v) = vscale (d * c) v.
Proof. induction v as [|x v IH]; simpl; [reflexivity|]. f_equal; [lra | exact IH]. Qed.

Lemma vscale_plus (c d : R) (v : list R) :
  vscale (c + d) v = vadd (vscale c v) (vscale d v).
Proof. induction v as [|x v IH]; simpl; [reflexivity|]. f_equal; [lra | exact IH]. Qed.

Lemma vscale_vadd (c : R) (u v : list R) :
  vscale c (vadd u v) = vadd (vscale c u) (vscale c v).
Proof.
  revert v. induction u as [|x u IH]; intros [|y v]; simpl; try reflexivity.
  f_equal; [lra | apply IH].
Qed.

Lemma vadd_interchange (a b c d : list R) :
  vadd (vadd a b) (vadd c d) = vadd (vadd a c) (vadd b d).
Proof.
  revert b c d. induction a as [|x a IH]; intros [|y b] [|z c] [|t d]; simpl; try reflexivity.
  f_equal; [lra | apply IH].
Qed.

Lemma row_combination_cons (p : nat) (x : R) (u r : list R) (M : matrix) :
  row_combination p (x :: u) (r :: M) = vadd (vscale x r) (row_combination p u M).
Proof. reflexivity. Qed.

Lemma row_combination_nil_l (p : nat) (M : matrix) : row_combination p [] M = zeros p.
Proof. reflexivity. Qed.

Lemma row_combination_nil_r (p : nat) (u : list R) : row_combination p u [] = zeros p.
Proof. now destruct u. Qed.

Lemma row_combination_length (p : nat) (x : list R) (M : matrix) :
  Forall (fun row => length row = p) M -> length (row_combination p x M) = p.
Proof.
  intros HM. revert x. induction HM as [|r M Hr _ IH]; intros [|c x];
    rewrite ?row_combination_nil_l, ?row_combination_nil_r, ?row_combination_cons;
    try apply zeros_length.
  rewrite vadd_length; rewrite vscale_length; [exact Hr | now rewrite IH].
Qed.

Section RowCombination.

(** the width of the rows that are combined *)
Variable p : nat.

Lemma row_combination_zeros (n : nat) (M : matrix) :
  Forall (fun row => length row = p) M -> row_combination p (zeros n) M = zeros p.
Proof.
  intros HM. revert n. induction HM as [|r M Hr _ IH]; intros [|n]; try reflexivity.
  change (zeros (S n)) with (0 :: zeros n).
  now rewrite row_combination_cons, IH, vscale_zero, Hr, vadd_zeros.
Qed.

Lemma row_combination_vadd (u v : list R) (M : matrix) :
  length u = length v ->
  row_combination p (vadd u v) M = vadd (row_combination p u M) (row_combination p v M).
Proof.
  revert u v. induction M as [|r M IH]; intros [|x u] [|y v] E; try discriminate E;
    rewrite ?row_combination_nil_l, ?row_combination_nil_r; try (now rewrite vadd_zeros).
  injection E as E. change (vadd (x :: u) (y :: v)) with (x + y :: vadd u v).
  rewrite !row_combination_cons, (IH _ _ E), vscale_plus. apply vadd_interchange.
Qed.

Lemma row_combination_vscale (c : R) (u : list R) (M : matrix) :
  row_combination p (vscale c u) M = vscale c (row_combination p u M).
Proof.
  revert u. induction M as [|r M IH]; intros [|x u];
    rewrite ?row_combination_nil_l, ?row_combination_nil_r; try (now rewrite vscale_zeros).
  change (vscale c (x :: u)) with (x * c :: vscale c u).
  now rewrite !row_combination_cons, IH, vscale_vadd, vscale_vscale.
Qed.

(** [(z @ A) @ M = z @ (A @ M)] *)
Lemma row_combination_assoc (n : nat) (z : list R) (A M : matrix) :
  Forall (fun row => length row = n) A ->
  Forall (fun row => length row = p) M ->
  row_combination p (row_combination n z A) M =
  row_combination p z (map (fun row => row_combination p row M) A).
Proof.
  intros HA HM. revert z. induction HA as [|a A Ha HA IH]; intros [|x z]; cbn [map].
  - rewrite !row_combination_nil_l. now apply row_combination_zeros.
  - rewrite !row_combination_nil_r. now apply row_combination_zeros.
  - rewrite !row_combination_nil_l. now apply row_combination_zeros.
  - rewrite !row_combination_cons.
    rewrite row_combination_vadd, row_combination_vscale, IH; [reflexivity|].
    now rewrite vscale_length, Ha, row_combination_length.
Qed.

End RowCombination.

Lemma matmul_shape1 (A M : matrix) :
  A <> [] -> rect M -> shape1 (matmul A M) = shape1 M.
Proof.
  intros HA HM. destruct A as [|a A]; [contradiction|]. unfold matmul, shape1 at 1. simpl.
  now apply row_combination_length.
Qed.

Lemma matmul_rect (A M : matrix) : A <> [] -> rect M -> rect (matmul A M).
Proof.
  intros HA HM. unfold rect. rewrite (matmul_shape1 _ _ HA HM). unfold matmul.
  apply Forall_map, Forall_forall. intros row _. now apply row_combination_length.
Qed.

Lemma vecmat_assoc (z : list R) (A M : matrix) :
  A <> [] -> rect A -> rect M ->
  vecmat (vecmat z A) M = vecmat z (matmul A M).
Proof.
  intros HA HrA HrM. unfold vecmat. rewrite (matmul_shape1 _ _ HA HrM).
  now apply row_combination_assoc.
Qed.

(** When the adapter equation [x @ W + b = target] has a solution, the
    vector [(target - b) @ pinv(W)] is one. *)
Lemma pinv_solves_adapter_equation (W X : matrix) (y z : list R) :
  is_pinv W X -> rect W -> shape1 W <> 0%nat ->
  vecmat z W = y ->
  vecmat (vecmat y X) W = y.
Proof.
  intros (Hs & HX & H1 & _) HW Hn <-.
  assert (HWne : W <> []) by (intros ->; now apply Hn).
  assert (HXne : X <> []).
  { intros ->. apply Hn. now rewrite <- Hs. }
  assert (HrX : rect X).
  { destruct X as [|x X]; [contradiction|]. apply Forall_cons_1 in HX as HX'.
    destruct HX' as (Hx & _). unfold rect, shape1. simpl. now rewrite Hx. }
  assert (HWXne : matmul W X <> []).
  { intros E. apply (f_equal length) in E. unfold matmul in E. rewrite length_map in E.
    destruct W; [contradiction | discriminate]. }
  rewrite (vecmat_assoc z W X HWne HW HrX).
  rewrite (vecmat_assoc z (matmul W X) W HWXne (matmul_rect _ _ HWne HrX) HW).
  now rewrite H1.
Qed.



Local Close Scope R_scope.




(** * Further properties of the script *)

(** ** Degenerate inputs of the two solvers *)

Local Open Scope R_scope.

Lemma dot_zero_r (u v : list R) : Forall (fun x => x = 0) v -> dot u v = 0.
Proof.
  unfold dot. intros Hv. revert u. induction Hv as [|y v -> _ IH]; intros [|x u]; simpl; try lra.
  rewrite IH. lra.
Qed.

Lemma dot_zero_self (v : list R) : Forall (fun x => x = 0) v -> dot v v = 0.
Proof. apply dot_zero_r. Qed.

Lemma vdiv_zero_vector (v : list R) :
  v <> [] -> Forall (fun x => x = 0) v -> vdiv v (norm v) = NonFinite.
Proof.
  intros Hne Hz. unfold vdiv. destruct v as [|x v]; [contradiction|].
  destruct (Req_dec_T (norm (x :: v)) 0) as [_|E]; [reflexivity|].
  exfalso. apply E. unfold norm. rewrite (dot_zero_self _ Hz). apply sqrt_0.
Qed.

Lemma tensor_bind_non_finite (t : tensor) (k : list R -> tensor) :
  (forall v, k v = NonFinite) -> tensor_bind t k = NonFinite.
Proof. intros Hk. destruct t; [apply Hk | reflexivity]. Qed.

(** X3.  With an all-zero bias (and a weight with at least one row) the
    bias direction is 0/0: on operands of conforming shapes
    [single_step_steer] returns a non-finite vector whatever the target and
    [bias_scale], also for [bias_scale = 0]. *)
Theorem single_step_steer_zero_bias (adapter : adapter) (target : list R) (bias_scale : R) :
  conforming (W adapter) (b adapter) target ->
  W adapter <> [] ->
  Forall (fun x => x = 0) (b adapter) ->
  single_step_steer adapter target bias_scale = NonFinite.
Proof.
  intros _ HW Hb. unfold single_step_steer. cbv zeta.
  apply tensor_bind_non_finite. intros steer_vec.
  rewrite vdiv_zero_vector; [reflexivity | |].
  - unfold matvec. destruct (W adapter); [contradiction | discriminate].
  - unfold matvec. apply Forall_map, Forall_forall. intros row _. now apply dot_zero_r.
Qed.

Lemma single_step_steer_zero_bias_witness :
  single_step_steer adapter_two [2] 0 = NonFinite.
Proof.
  apply single_step_steer_zero_bias;
    [repeat split; repeat constructor | discriminate | repeat constructor].
Defined.

Lemma single_step_steer_zero_vector (adapter : adapter) (target : list R) (scale : R) :
  W adapter <> [] -> Forall (fun x => x = 0) target ->
  single_step_steer adapter target scale = NonFinite.
Proof.
  intros HW Hz. unfold single_step_steer. cbv zeta.
  rewrite vdiv_zero_vector; [reflexivity | |].
  - unfold matvec. destruct (W adapter); [contradiction | discriminate].
  - unfold matvec. apply Forall_map, Forall_forall. intros row _. now apply dot_zero_r.
Qed.

Lemma pinverse_steer_zero_vector (w : world) (adapter : adapter) (target : list R)
    (scale : R) :
  target <> [] -> Forall (fun x => x = 0) target ->
  pinverse_steer w adapter target scale = NonFinite.
Proof. intros Hne Hz. unfold pinverse_steer. now rewrite vdiv_zero_vector. Qed.

(** X4.  The same for the target: with no feature configured, or only
    zero scales, both solvers return a non-finite vector on operands of
    conforming shapes. *)
Theorem zero_target_is_non_finite (w : world) (adapter : adapter) (target : list R)
    (scale : R) :
  conforming (W adapter) (b adapter) target ->
  W adapter <> [] -> target <> [] ->
  Forall (fun x => x = 0) target ->
  single_step_steer adapter target scale = NonFinite /\
  pinverse_steer w adapter target scale = NonFinite.
Proof.
  intros _ HW Hne Hz. split.
  - now apply single_step_steer_zero_vector.
  - now apply pinverse_steer_zero_vector.
Qed.

Lemma zero_target_is_non_finite_witness :
  single_step_steer adapter_two [0] 1 = NonFinite /\
  pinverse_steer adapter_world adapter_two [0] 1 = NonFinite.
Proof.
  apply zero_target_is_non_finite;
    [repeat split; repeat constructor | discriminate | discriminate | repeat constructor].
Defined.

Local Close Scope R_scope.
(** ** The pseudo-inverse and the rotation loader *)

(** X5.  [pinverse_steer] solves the adapter's equation for the scaled
    direction of the target: for a Moore-Penrose [torch.linalg.pinv] and
    any [target_scale], the vector it returns is mapped by [x -> x @ W + b]
    to [target / |target| * target_scale] whenever some vector is. *)
Theorem pinverse_steer_solves_scaled_target (w : world) (adapter : adapter)
    (target x : list R) (target_scale : R) :
  is_pinv (W adapter) (linalg_pinv w (W adapter)) ->
  rect (W adapter) -> shape1 (W adapter) <> 0%nat ->
  pinverse_steer w adapter target target_scale = Fin x ->
  (exists z, vecmat z (W adapter) =
             vsub (vscale target_scale (map (fun t => (t / norm target)%R) target))
                  (b adapter)) ->
  vecmat x (W adapter) =
  vsub (vscale target_scale (map (fun t => (t / norm target)%R) target)) (b adapter).
Proof.
  intros Hp Hr Hn E (z & Hz). unfold pinverse_steer in E.
  destruct (vdiv target (norm target)) as [t'|] eqn:Ev; [|discriminate E].
  cbn [tensor_bind] in E. injection E as <-.
  assert (Ht : t' = map (fun t => (t / norm target)%R) target).
  { unfold vdiv in Ev. destruct target as [|t0 target]; [now injection Ev as <-|].
    destruct (Req_dec_T (norm (t0 :: target)) 0); [discriminate Ev | now injection Ev as <-]. }
  rewrite Ht. eapply pinv_solves_adapter_equation; eassumption.
Qed.

Lemma pinverse_steer_solves_scaled_target_witness :
  vecmat [(/ 2 * (2 / norm [2] * 3 - 0) + 0)%R] (W adapter_two) =
  vsub (vscale 3 (map (fun t => (t / norm [2%R])%R) [2%R])) (b adapter_two).
Proof.
  apply (pinverse_steer_solves_scaled_target adapter_world adapter_two [2%R] _ 3%R).
  - apply pinv1_two.
  - repeat constructor.
  - discriminate.
  - unfold pinverse_steer. rewrite vdiv_defined; [reflexivity|]. rewrite norm_two. lra.
  - exists [((2 / norm [2] * 3 - 0) / 2)%R].
    unfold vecmat, row_combination, vscale, vadd, vsub, zeros. simpl.
    rewrite norm_two. f_equal. lra.
Defined.

Lemma load_rotation_steer_ok_inv (w : world) load_matrix load_vector (path : string)
    (h h' : history) (t : tensor) (hp layer : pyval) :
  load_rotation_steer w load_matrix load_vector path h = (Ok (t, hp, layer), h') ->
  exists pre, t = normalise pre.
Proof.
  unfold load_rotation_steer. intros E.
  apply bind_ok_inv in E. destruct E as (config & h1 & _ & E).
  apply bind_ok_inv in E. destruct E as (layer' & h2 & _ & E).
  apply bind_ok_inv in E. destruct E as (hp' & h3 & _ & E).
  apply bind_ok_inv in E. destruct E as (sae & h4 & _ & E).
  apply bind_ok_inv in E. destruct E as (R & h5 & _ & E).
  apply bind_ok_inv in E. destruct E as (b & h6 & _ & E).
  apply bind_ok_inv in E. destruct E as (f0 & h7 & _ & E).
  apply bind_ok_inv in E. destruct E as (features & h8 & _ & E).
  apply bind_ok_inv in E. destruct E as (vectors & h9 & _ & E).
  apply bind_ok_inv in E. destruct E as (vec & h10 & _ & E).
  apply ret_ok_inv in E. destruct E as ([= -> _ _] & _). eexists. reflexivity.
Qed.

(** X6.  [load_rotation_steer] ends with a normalisation: its vector has
    unit L2 norm whenever it is finite and not empty. *)
Theorem rotation_vector_has_unit_norm (w : world)
    (load_matrix : history -> string -> res matrix)
    (load_vector : history -> string -> res (list R))
    (path : string) (h h' : history) (v : list R) (hp layer : pyval) :
  load_rotation_steer w load_matrix load_vector path h = (Ok (Fin v, hp, layer), h') ->
  v <> [] ->
  norm v = 1%R.
Proof.
  intros E Hv. apply load_rotation_steer_ok_inv in E. destruct E as (pre & E).
  exact (normalise_unit _ _ (eq_sym E) Hv).
Qed.

Lemma normalise_positive_singleton (x : R) : (0 < x)%R -> normalise (Fin [x]) = Fin [1%R].
Proof.
  intros Hx. unfold normalise. rewrite vdiv_defined; rewrite norm_singleton, Rabs_right; try lra.
  simpl. do 2 f_equal. field. lra.
Qed.

Lemma rotation_run :
  load_rotation_steer adapter_world (fun _ _ => Ok [[1%R]]) (fun _ _ => Ok [0%R])
    "steer_cfgs/gemma2/anger" [] =
  (Ok (Fin [1%R], PStr "blocks.20.hook_resid_post", PInt 20),
   [EvReadJson "steer_cfgs/gemma2/anger/optimised_steer.json" (Ok adapter_config);
    EvFromPretrained (PStr "gemma-scope-9b-pt-res") (PInt 20) None;
    EvTorchLoad "R_dec_layer_20.pt" None;
    EvTorchLoad "correction_bias_layer_20.pt" None]).
Proof.
  assert (E : load_rotation_steer adapter_world (fun _ _ => Ok [[1%R]]) (fun _ _ => Ok [0%R])
                "steer_cfgs/gemma2/anger" [] =
              (Ok (normalise (tensor_bind (normalise (rotate [[1%R]] (normalise (Fin [(1 * 2)%R]))))
                                          (fun s => Fin (vsub s [0%R]))),
                   PStr "blocks.20.hook_resid_post", PInt 20),
               [EvReadJson "steer_cfgs/gemma2/anger/optimised_steer.json" (Ok adapter_config);
                EvFromPretrained (PStr "gemma-scope-9b-pt-res") (PInt 20) None;
                EvTorchLoad "R_dec_layer_20.pt" None;
                EvTorchLoad "correction_bias_layer_20.pt" None])) by reflexivity.
  rewrite E. rewrite (normalise_positive_singleton (1 * 2)) by lra.
  change (rotate [[1%R]] (Fin [1%R])) with (Fin [(1 * 1 + 0)%R]).
  rewrite (normalise_positive_singleton (1 * 1 + 0)) by lra.
  change (tensor_bind (Fin [1%R]) (fun s => Fin (vsub s [0%R]))) with (Fin [(1 - 0)%R]).
  rewrite (normalise_positive_singleton (1 - 0)) by lra. reflexivity.
Qed.

Lemma rotation_vector_has_unit_norm_witness : norm [1%R] = 1%R.
Proof.
  apply (rotation_vector_has_unit_norm _ _ _ _ _ _ _ _ _ rotation_run). discriminate.
Defined.
(** ** Feature lists at the edges *)

(** X7.  Without any configured feature [load_sae_steer] fails in
    [torch.stack], after the autoencoder has been loaded. *)
Theorem load_sae_steer_without_features (w : world) (path : string) (h h2 : history)
    (config : pyval) (sae : sae_model) :
  open_json w h (path_join path "feature_steer.json") = Ok config ->
  load_sae_model w config
    (h ++ [EvReadJson (path_join path "feature_steer.json") (Ok config)])%list = (Ok sae, h2) ->
  (f ← py_getitem config "features"; py_iter f) = Ok [] ->
  load_sae_steer w path h =
    (Raise (RuntimeError "stack expects a non-empty TensorList"), h2).
Proof.
  intros Hopen Hsae Hf. unfold load_sae_steer, read_json.
  rewrite call_bind, Hopen, bind_run, Hsae.
  apply res_bind_ok_inv in Hf. destruct Hf as (f & Hf & Hi).
  rewrite lift_bind, Hf, lift_bind, Hi. reflexivity.
Qed.

Lemma load_sae_steer_without_features_witness :
  load_sae_steer empty_features_world "steer_cfgs/gemma2/anger" [] =
  (Raise (RuntimeError "stack expects a non-empty TensorList"),
   [EvReadJson "steer_cfgs/gemma2/anger/feature_steer.json" (Ok empty_features_config);
    EvFromPretrained (PStr "gemma-scope-9b-pt-res") (PInt 20) None]).
Proof.
  apply (load_sae_steer_without_features empty_features_world _ []
           _ empty_features_config {| W_enc := [[1%R]]; W_dec := [[1%R]] |});
    reflexivity.
Defined.

Lemma zeros_all_zero (n : nat) : Forall (fun x => x = 0%R) (zeros n).
Proof. unfold zeros. induction n; simpl; constructor; [reflexivity | assumption]. Qed.

(** X8.  The two adapter loaders do not fail there: the target stays the
    zero vector and the vector they return is non-finite. *)
Theorem adapter_loaders_without_features (w : world) (path : string) (big_model : bool)
    (h h' : history) (config layer hp : pyval) (adapter : adapter) (target : list R) :
  load_adapter_and_target w path big_model h = (Ok (config, layer, adapter, target), h') ->
  (f ← py_getitem config "features"; py_iter f) = Ok [] ->
  py_getitem config "hp" = Ok hp ->
  W adapter <> [] -> shape1 (W adapter) <> 0%nat ->
  load_optimised_steer w path big_model h = (Ok (NonFinite, hp, layer), h') /\
  load_pinv_steer w path big_model h = (Ok (NonFinite, hp, layer), h').
Proof.
  intros Hl Hf Hhp HW Hn.
  destruct (load_adapter_and_target_ok_inv _ _ _ _ _ _ _ _ _ Hl)
    as (items & h0 & file & Hi & Ht & _).
  rewrite Hf in Hi. injection Hi as <-. injection Ht as <-.
  assert (Hne : zeros (shape1 (W adapter)) <> []).
  { unfold zeros. destruct (shape1 (W adapter)); [contradiction | discriminate]. }
  pose proof (single_step_steer_zero_vector adapter _ 1%R HW
                (zeros_all_zero (shape1 (W adapter)))) as H1.
  pose proof (pinverse_steer_zero_vector w adapter _ 1%R Hne
                (zeros_all_zero (shape1 (W adapter)))) as H2.
  unfold load_optimised_steer, load_pinv_steer.
  rewrite !bind_run, Hl. cbv beta iota zeta. rewrite H1, H2, !lift_bind, Hhp.
  split; reflexivity.
Qed.

Lemma adapter_loaders_without_features_witness :
  load_optimised_steer empty_features_world "steer_cfgs/gemma2/anger" false [] =
    (Ok (NonFinite, PStr "blocks.20.hook_resid_post", PInt 20),
     [EvReadJson "steer_cfgs/gemma2/anger/optimised_steer.json" (Ok empty_features_config);
      EvFromPretrained (PStr "gemma-scope-9b-pt-res") (PInt 20) None;
      EvTorchLoad "adapter_layer_20.pt" None]) /\
  load_pinv_steer empty_features_world "steer_cfgs/gemma2/anger" false [] =
    (Ok (NonFinite, PStr "blocks.20.hook_resid_post", PInt 20),
     [EvReadJson "steer_cfgs/gemma2/anger/optimised_steer.json" (Ok empty_features_config);
      EvFromPretrained (PStr "gemma-scope-9b-pt-res") (PInt 20) None;
      EvTorchLoad "adapter_layer_20.pt" None]).
Proof.
  apply (adapter_loaders_without_features empty_features_world _ false [] _
           empty_features_config (PInt 20) _ adapter_two [0%R]);
    (reflexivity || discriminate).
Defined.

(** X21.  The operands that the two adapter loaders hand to their solver
    have conforming shapes: the adapter has passed [load_state_dict], and
    the loop over the features, whatever ids and scales it is given, leaves
    the target with its [W.shape[1]] entries. *)
Theorem loaded_operands_conform (w : world) (path : string) (big_model : bool)
    (h h' : history) (config layer : pyval) (adapter : adapter) (target : list R) :
  load_adapter_and_target w path big_model h = (Ok (config, layer, adapter, target), h') ->
  conforming (W adapter) (b adapter) target.
Proof.
  intros E. apply load_adapter_and_target_ok_inv in E.
  destruct E as (items & h0 & file & _ & Ht & _ & Hrect & Hb).
  split; [exact Hrect | split; [exact (build_target_length _ _ _ _ Ht) | exact Hb]].
Qed.

Lemma loaded_operands_conform_witness :
  conforming (W adapter_two) (b adapter_two) [2%R].
Proof.
  exact (loaded_operands_conform adapter_world _ _ _ _ _ _ _ _ adapter_world_target).
Defined.

Lemma for_res_app {A S} (l1 l2 : list A) (body : A -> S -> res S) (s : S) :
  for_res (l1 ++ l2) body s = (s' ← for_res l1 body s; for_res l2 body s').
Proof.
  revert s. induction l1 as [|x l1 IH]; intros s; simpl; [reflexivity|].
  destruct (body x s) as [s'|e]; simpl; [apply IH | reflexivity].
Qed.

Lemma py_index_out_of_range (n : nat) (z : Z) :
  (z < - Z.of_nat n \/ Z.of_nat n <= z)%Z -> py_index n z = None.
Proof.
  intros Hz. unfold py_index.
  destruct ((0 <=? z)%Z && (z <? Z.of_nat n)%Z) eqn:E1.
  - apply andb_true_iff in E1. lia.
  - destruct ((- Z.of_nat n <=? z)%Z && (z <? 0)%Z) eqn:E2; [|reflexivity].
    apply andb_true_iff in E2. lia.
Qed.

(** X9.  An integer feature id outside [-n, n) makes the target loop of
    the adapter loaders raise [IndexError] at that pair, whatever pairs
    follow, when the id fits 64 bits and its scale is a number that torch
    accepts (the scale is converted before the id is looked at). *)
Theorem build_target_rejects_out_of_range (w : world) (n : nat) (pre post : list pyval)
    (z : Z) (x : pyval) (t : list R) (r : R) :
  build_target w n pre = Ok t ->
  py_real x = Ok r ->
  int64 z = true ->
  (z < - Z.of_nat n \/ Z.of_nat n <= z)%Z ->
  build_target w n (pre ++ PList [PInt z; x] :: post) = Raise IndexError.
Proof.
  intros Hpre Hr H64 Hz. pose proof (build_target_length _ _ _ _ Hpre) as Hlen.
  unfold build_target in *. rewrite for_res_app, Hpre. simpl.
  unfold set_at, tensor_index. rewrite Hr. simpl.
  rewrite Hlen, (py_index_out_of_range _ _ Hz), H64. reflexivity.
Qed.

Lemma build_target_rejects_out_of_range_witness :
  build_target demo_world 3 ([PList [PInt 0; PInt 1]] ++ PList [PInt 3; PInt 1] :: []) =
  Raise IndexError.
Proof.
  apply (build_target_rejects_out_of_range demo_world 3 _ _ 3 _ [1%R; 0%R; 0%R] 1%R);
    [reflexivity | reflexivity | reflexivity | lia].
Defined.

Lemma py_index_negative (n : nat) (z : Z) :
  (- Z.of_nat n <= z < 0)%Z -> py_index n z = Some (Z.to_nat (Z.of_nat n + z)).
Proof.
  intros Hz. unfold py_index.
  destruct ((0 <=? z)%Z && (z <? Z.of_nat n)%Z) eqn:E1.
  - apply andb_true_iff in E1. lia.
  - destruct ((- Z.of_nat n <=? z)%Z && (z <? 0)%Z) eqn:E2.
    + now rewrite Z.add_comm.
    + apply andb_false_iff in E2. lia.
Qed.

Lemma nth_error_is_lookup {A} (l : list A) (i : nat) : nth_error l i = l !! i.
Proof. revert i. induction l as [|x l IH]; intros [|i]; simpl; auto. Qed.

Lemma row_at_ok (w : world) (A : matrix) (i : Z) (k : nat) (row : list R) :
  py_index (length A) i = Some k -> A !! k = Some row -> row_at w A (PInt i) = Ok row.
Proof.
  intros Hk Hrow. unfold row_at, matrix in *. rewrite (tensor_index_ok _ _ _ Hk). simpl.
  unfold list_at. pose proof (nth_error_is_lookup A k) as E. rewrite Hrow in E. now rewrite E.
Qed.

(** X10.  Feature ids are Python indices: a negative id [-k] addresses
    the [k]-th entry from the end, in the target of the adapter loaders as
    in the decoder rows of the SAE loader. *)
Theorem negative_feature_id_counts_from_the_end (w : world) (n : nat) (W_dec : matrix)
    (z : Z) (x : pyval) (r : R) :
  (- Z.of_nat n <= z < 0)%Z -> length W_dec = n -> py_real x = Ok r ->
  build_target w n [PList [PInt z; x]] =
    Ok (<[Z.to_nat (Z.of_nat n + z) := r]> (zeros n)) /\
  exists row, W_dec !! Z.to_nat (Z.of_nat n + z) = Some row /\
              feature_rows w W_dec [PList [PInt z; x]] = Ok [vscale r row].
Proof.
  intros Hz Hlen Hr. pose proof (py_index_negative _ _ Hz) as Hk. split.
  - unfold build_target. cbn -[set_at zeros].
    rewrite (set_at_ok w (zeros n) z (Z.to_nat (Z.of_nat n + z)) x r);
      [reflexivity | now rewrite zeros_length | exact Hr].
  - destruct (lookup_lt_is_Some_2 W_dec (Z.to_nat (Z.of_nat n + z))) as (row & Hrow); [lia|].
    exists row. split; [exact Hrow|].
    rewrite <- Hlen in Hk. unfold feature_rows. cbn -[row_at py_real vscale].
    rewrite (row_at_ok w W_dec z _ row Hk) by (rewrite Hlen; exact Hrow).
    cbn -[py_real vscale]. rewrite Hr. reflexivity.
Qed.

Lemma negative_feature_id_counts_from_the_end_witness :
  build_target demo_world 3 [PList [PInt (-1); PInt 5]] = Ok [0%R; 0%R; 5%R].
Proof.
  apply (negative_feature_id_counts_from_the_end demo_world 3 [[1%R]; [2%R]; [3%R]] (-1)
           (PInt 5) 5%R);
    [lia | reflexivity | reflexivity].
Defined.

(** X11.  A feature id configured twice: the adapter loaders keep the
    scale of the second pair, the SAE loader adds the two contributions. *)
Theorem repeated_feature_id (w : world) (n : nat) (W_dec : matrix) (i : Z) (k : nat)
    (row : list R) (a c : pyval) (ra rc : R) :
  py_index n i = Some k -> length W_dec = n -> W_dec !! k = Some row ->
  py_real a = Ok ra -> py_real c = Ok rc ->
  build_target w n [PList [PInt i; a]; PList [PInt i; c]] =
    build_target w n [PList [PInt i; c]] /\
  (vectors ← feature_rows w W_dec [PList [PInt i; a]; PList [PInt i; c]];
   stack_sum vectors) = Ok (vadd (vscale ra row) (vscale rc row)).
Proof.
  intros Hk Hlen Hrow Ha Hc. split.
  - unfold build_target. cbn -[set_at zeros].
    rewrite (set_at_ok w (zeros n) i k a ra), (set_at_ok w (zeros n) i k c rc);
      try assumption; try (now rewrite zeros_length).
    cbn -[set_at zeros]. rewrite (set_at_ok w _ i k c rc); try assumption.
    + now rewrite list_insert_insert_eq.
    + now rewrite length_insert, zeros_length.
  - rewrite <- Hlen in Hk. unfold feature_rows. cbn -[row_at py_real vscale].
    rewrite !(row_at_ok w _ _ _ _ Hk Hrow), Ha. cbn -[row_at py_real vscale].
    rewrite Hc. reflexivity.
Qed.

Lemma repeated_feature_id_witness :
  build_target demo_world 2 [PList [PInt 1; PInt 3]; PList [PInt 1; PInt 4]] =
  build_target demo_world 2 [PList [PInt 1; PInt 4]].
Proof.
  apply (repeated_feature_id demo_world 2 [[1%R]; [2%R]] 1 1 [2%R] (PInt 3) (PInt 4) 3%R 4%R);
    reflexivity.
Defined.

(** ** More about one sweep *)

Lemma zip_with_map_map {A B C D} (f : B -> C -> D) (g : A -> B) (k : A -> C) (l : list A) :
  zip_with f (map g l) (map k l) = map (fun x => f (g x) (k x)) l.
Proof. induction l as [|x l IH]; simpl; [reflexivity | now rewrite IH]. Qed.

(** X12.  The per-sample products of a scale are the entrywise products
    of its per-sample scores and coherences, cut to the shorter list when
    the evaluator rated the two rubrics for different numbers of samples. *)
Theorem individual_products_are_entrywise (w : world) (default_prompt : option pyval)
    (steer : tensor) (hp : pyval) (path method : string) (h h' : history)
    (s : summary) (gd : graph_data) :
  analyse_steer w default_prompt steer hp path method h = (Ok (s, gd), h') ->
  individual_products gd =
    zip_with (zip_with Qmult) (individual_scores gd) (individual_coherences gd) /\
  Forall2 (fun products sc => length products = (length (fst sc) `min` length (snd sc))%nat)
          (individual_products gd)
          (zip (individual_scores gd) (individual_coherences gd)).
Proof.
  intros E. apply analyse_steer_ok_inv in E.
  destruct E as (criteria & prompt & its & mi & t_read & t_write & _ & _ & _ & _ & _ & _ & _
                 & _ & _ & _ & _ & Hs & Hc & Hp & _).
  rewrite Hs, Hc, Hp. split.
  - unfold zip_with at 1. symmetry. apply (zip_with_map_map (zip_with Qmult)).
  - clear. induction its as [|it its IH]; simpl; constructor; [|exact IH].
    simpl. apply length_zip_with.
Qed.

Lemma individual_products_are_entrywise_witness :
  exists s gd h',
    analyse_steer demo_world (Some (PStr "I think")) NonFinite (PStr "blocks.12.hook_resid_post")
                  "cfg" "SAE" [] = (Ok (s, gd), h')
    /\ individual_products gd =
       zip_with (zip_with Qmult) (individual_scores gd) (individual_coherences gd).
Proof.
  eassert (E : analyse_steer demo_world (Some (PStr "I think")) NonFinite
                 (PStr "blocks.12.hook_resid_post") "cfg" "SAE" [] = (Ok (_, _), _))
    by (vm_compute; reflexivity).
  eexists _, _, _. split; [exact E|].
  exact (proj1 (individual_products_are_entrywise _ _ _ _ _ _ _ _ _ _ E)).
Defined.

(** X13.  A batch for which the evaluator returns no score rating ends
    the sweep with [ZeroDivisionError], raised by the mean. *)
Theorem sweep_step_without_score_ratings (w : world) (steer : tensor)
    (hp prompt criteria : pyval) (scale : Z) (acc : sweep_lists) (h : history)
    (texts : list string) (c0 c_score c_coherence : pyval)
    (reply_coherence : list pyval) (coherence : list Q) :
  steer_model w h steer hp prompt scale 256 = Ok texts ->
  py_getitem_int criteria 0 = Ok c0 ->
  py_getitem c0 "score" = Ok c_score ->
  py_getitem c0 "coherence" = Ok c_coherence ->
  multi_criterion_evaluation w
    (h ++ [EvGenerate steer hp prompt scale 256 (Ok texts)])%list
    texts [c_score; c_coherence] prompt = Ok ([], reply_coherence) ->
  rescale_ratings reply_coherence = Ok coherence ->
  sweep_step w steer hp prompt criteria scale acc h =
    (Raise ZeroDivisionError,
     (h ++ [EvGenerate steer hp prompt scale 256 (Ok texts);
            EvEvaluate texts [c_score; c_coherence] prompt (Ok ([], reply_coherence))])%list).
Proof.
  intros Hgen H0 Hs Hc Hev Hcoh. unfold sweep_step.
  rewrite call_bind, Hgen. cbv beta iota.
  rewrite lift_bind, H0. cbv beta iota. rewrite lift_bind, Hs. cbv beta iota.
  rewrite lift_bind. cbv beta iota. rewrite lift_bind, Hc. cbv beta iota.
  rewrite call_bind, Hev. cbv beta iota.
  rewrite lift_bind. change (rescale_ratings []) with (Ok (@nil Q)). cbv beta iota.
  rewrite lift_bind, Hcoh. cbv beta iota. rewrite lift_bind. cbn [py_mean].
  now rewrite <- app_assoc.
Qed.

Lemma sweep_step_without_score_ratings_witness :
  fst (sweep_step no_ratings_world NonFinite (PStr "blocks.12.hook_resid_post")
         (PStr "I think") demo_criteria 0 empty_lists []) = Raise ZeroDivisionError.
Proof.
  erewrite (sweep_step_without_score_ratings no_ratings_world NonFinite
              (PStr "blocks.12.hook_resid_post") (PStr "I think") demo_criteria 0 empty_lists []
              ["one"; "two"] _ (PStr "rubric for anger") (PStr "rubric for fluency")
              [rating 5] [rescale 5]); reflexivity.
Defined.

(** ** Everything plotted lies on the chart *)

Lemma fold_sum_bounds (l : list Q) (a : Q) :
  Forall unit_interval l ->
  (a <= fold_left Qplus l a)%Q /\
  (fold_left Qplus l a <= a + inject_Z (Z.of_nat (length l)))%Q.
Proof.
  intros Hl. revert a. induction Hl as [|x l (Hx0 & Hx1) _ IH]; intros a.
  - change (inject_Z (Z.of_nat (length (@nil Q)))) with 0%Q. simpl. split; lra.
  - cbn [fold_left length]. destruct (IH (a + x)%Q) as (H1 & H2).
    rewrite Nat2Z.inj_succ, <- Z.add_1_r, inject_Z_plus. unfold inject_Z at 2. simpl (1 # 1)%Q.
    split; lra.
Qed.

Lemma py_mean_unit_interval (l : list Q) (m : Q) :
  py_mean l = Ok m -> Forall unit_interval l -> unit_interval m.
Proof.
  intros E Hl. destruct l as [|x l]; [discriminate|]. injection E as <-.
  destruct (fold_sum_bounds _ 0%Q Hl) as (H1 & H2).
  assert (Hn : (0 < inject_Z (Z.of_nat (length (x :: l))))%Q).
  { change 0%Q with (inject_Z 0). rewrite <- Zlt_Qlt. cbn [length]. lia. }
  split.
  - apply Qle_shift_div_l; [exact Hn |].
    apply Qle_trans with 0%Q; [rewrite Qmult_0_l; apply Qle_refl | exact H1].
  - apply Qle_shift_div_r; [exact Hn |].
    eapply Qle_trans; [exact H2|]. rewrite Qplus_0_l, Qmult_1_l. apply Qle_refl.
Qed.

Lemma rescale_ratings_unit_interval (ratings : list pyval) (out : list Q) :
  rescale_ratings ratings = Ok out -> Forall on_rubric_scale ratings ->
  Forall unit_interval out.
Proof.
  intros E Hr. apply rescale_ratings_spec in E. destruct E as (raw & Hraw & ->).
  unfold raw_scores in Hraw. apply map_res_ok_inv in Hraw.
  revert Hr. induction Hraw as [|item q ratings raw Hq _ IH]; intros Hr; simpl; constructor.
  - apply Forall_cons_1 in Hr. destruct Hr as ((q' & Hq' & H1 & H10) & _).
    rewrite Hq in Hq'. injection Hq' as <-. now apply rescale_range.
  - apply IH. now apply Forall_cons_1 in Hr.
Qed.

Lemma product_unit_interval (x y : Q) :
  unit_interval x -> unit_interval y -> unit_interval (x * y).
Proof. intros (Hx0 & Hx1) (Hy0 & Hy1). split; nra. Qed.

(** X14.  When every rating of the evaluator lies on the rubric scale, 1
    to 10, the three curves of the chart (mean coherence, mean score and
    their product) and the reported [max_product] lie between 0 and 1, the
    range of the chart's y axis. *)
Theorem curves_lie_in_unit_interval (w : world) (default_prompt : option pyval)
    (steer : tensor) (hp : pyval) (path method : string) (h : history) (t : list event)
    (s : summary) (gd : graph_data) :
  analyse_steer w default_prompt steer hp path method h = (Ok (s, gd), (h ++ t)%list) ->
  Forall (fun reply => Forall on_rubric_scale (fst reply) /\
                       Forall on_rubric_scale (snd reply)) (evaluations t) ->
  Forall unit_interval (avg_coherence gd) /\
  Forall unit_interval (avg_score gd) /\
  Forall unit_interval (product gd) /\
  unit_interval (max_product s).
Proof.
  intros E Hrated. apply analyse_steer_ok_inv in E.
  destruct E as (criteria & prompt & its & mi & t_read & t_write & Hread & _ & Hok & Ht & _
                 & Hew & _ & _ & Has & Hac & Hprod & _ & _ & _ & Hmax & _).
  apply app_inv_head in Ht. subst t.
  assert (Hr : evaluations t_read = []).
  { destruct default_prompt; [destruct Hread as (_ & ->) | destruct Hread as (? & _ & ->)];
      reflexivity. }
  rewrite !evaluations_app, evaluations_iterations, Hr, Hew, app_nil_r in Hrated.
  simpl in Hrated.
  assert (Hmeans : Forall (fun it => unit_interval (it_mean_score it) /\
                                     unit_interval (it_mean_coherence it)) its).
  { clear -Hok Hrated. induction Hok as [|it its (H1 & H2 & H3 & H4) _ IH]; [constructor|].
    simpl in Hrated. apply Forall_cons_1 in Hrated. destruct Hrated as ((Hs & Hc) & Hrest).
    constructor; [|now apply IH]. split.
    - eapply py_mean_unit_interval; [exact H3|]. eapply rescale_ratings_unit_interval; eassumption.
    - eapply py_mean_unit_interval; [exact H4|]. eapply rescale_ratings_unit_interval; eassumption. }
  assert (Hc : Forall unit_interval (avg_coherence gd)).
  { rewrite Hac. apply Forall_map. eapply Forall_impl; [exact Hmeans|]. now intros it (_ & H). }
  assert (Hs : Forall unit_interval (avg_score gd)).
  { rewrite Has. apply Forall_map. eapply Forall_impl; [exact Hmeans|]. now intros it (H & _). }
  assert (Hp : Forall unit_interval (product gd)).
  { rewrite Hprod, Hac, Has. unfold zip_with. rewrite (zip_with_map_map Qmult).
    apply Forall_map. eapply Forall_impl; [exact Hmeans|].
    intros it (H1 & H2). now apply product_unit_interval. }
  destruct (py_max_spec _ _ Hmax) as (Hin & _).
  repeat split; try assumption; apply (proj1 (List.Forall_forall _ _) Hp _ Hin).
Qed.

Lemma curves_lie_in_unit_interval_witness :
  exists s gd t,
    analyse_steer demo_world (Some (PStr "I think")) NonFinite (PStr "blocks.12.hook_resid_post")
                  "cfg" "SAE" [] = (Ok (s, gd), ([] ++ t)%list)
    /\ Forall unit_interval (product gd) /\ unit_interval (max_product s).
Proof.
  eassert (E : analyse_steer demo_world (Some (PStr "I think")) NonFinite
                 (PStr "blocks.12.hook_resid_post") "cfg" "SAE" [] = (Ok (_, _), ([] ++ _)%list))
    by (vm_compute; reflexivity).
  eexists _, _, _. split; [exact E|].
  eapply (fun H => proj2 (proj2 (curves_lie_in_unit_interval _ _ _ _ _ _ _ _ _ _ E H))).
  vm_compute.
  repeat (constructor;
          [split; repeat (constructor; [eexists; split; [reflexivity | split; discriminate]|]);
             constructor|]).
  constructor.
Defined.

(** ** The whole sweep *)

Lemma fail_stop_failed_last_clean {A} (r : res A) (t1 t2 : list event) (e : event) (x : exn) :
  fail_stop r (t1 ++ e :: t2)%list -> failed e = Some x ->
  t2 = [] /\ r = Raise x /\ clean t1.
Proof.
  intros Hfs He. destruct (fail_stop_failed_last _ _ _ _ _ Hfs He) as (-> & ->).
  split; [reflexivity | split; [reflexivity|]].
  simpl in Hfs. destruct Hfs as [Hc|(t & e' & Heq & Hc & _)].
  - apply Forall_app in Hc. apply Hc.
  - apply app_inj_tail in Heq. destruct Heq as (<- & _). exact Hc.
Qed.

(** X15.  The sweep catches nothing: whichever call to the outside fails
    first (a missing file, the hub, the generator, the evaluator, a write),
    every call before it had succeeded, it is the last call of the run, and
    the run ends with its exception. *)
Theorem first_failure_ends_the_sweep (w : world) (default_prompt : option pyval)
    (big_model : bool) (h : history) (r : res unit) (t1 t2 : list event) (e : event)
    (x : exn) :
  sweep w default_prompt big_model h = (r, (h ++ t1 ++ e :: t2)%list) ->
  failed e = Some x ->
  t2 = [] /\ r = Raise x /\ clean t1.
Proof.
  intros E He. unfold sweep in E.
  destruct (traced_run _ _ _ _ _ (sweep_over_fs w default_prompt big_model _) E)
    as (t & Ht & Hfs).
  apply app_inv_head in Ht. subst t.
  eapply fail_stop_failed_last_clean; eassumption.
Qed.

Lemma first_failure_ends_the_sweep_witness :
  fst (main demo_world []) =
  Raise (FileNotFoundError "steer_cfgs/gemma2-9b/anger/criteria.json").
Proof.
  pose (run := main demo_world []).
  apply (first_failure_ends_the_sweep demo_world (Some (PStr "I think")) true []
           (fst run) (removelast (snd run)) []
           (List.last (snd run) (EvLoadStateDict None))).
  - vm_compute. reflexivity.
  - vm_compute. reflexivity.
Defined.

Lemma analyse_steer_ok_tags (w : world) (default_prompt : option pyval) (steer : tensor)
    (hp : pyval) (path method : string) (h h' : history) (s : summary) (gd : graph_data) :
  analyse_steer w default_prompt steer hp path method h = (Ok (s, gd), h') ->
  s_path s = path /\ s_method s = method /\ g_path gd = path /\ g_method gd = method.
Proof.
  unfold analyse_steer. intros E.
  apply bind_ok_inv in E. destruct E as (criteria & h1 & _ & E).
  apply bind_ok_inv in E. destruct E as (prompt & h2 & _ & E).
  apply bind_ok_inv in E. destruct E as (c0 & h3 & _ & E).
  apply bind_ok_inv in E. destruct E as (name & h4 & _ & E).
  apply bind_ok_inv in E. destruct E as (acc & h5 & _ & E).
  apply bind_ok_inv in E. destruct E as (mp & h6 & _ & E).
  apply bind_ok_inv in E. destruct E as (mi & h7 & _ & E).
  apply bind_ok_inv in E. destruct E as (ms & h8 & _ & E).
  apply bind_ok_inv in E. destruct E as (u1 & h9 & _ & E).
  apply bind_ok_inv in E. destruct E as (u2 & h10 & _ & E).
  apply ret_ok_inv in E. destruct E as ([= -> ->] & _). repeat split.
Qed.

Lemma run_method_ok_inv (w : world) (default_prompt : option pyval) (big_model : bool)
    (path : string) (m : method) (acc acc' : list summary * list graph_data)
    (h h' : history) :
  run_method w default_prompt big_model path m acc h = (Ok acc', h') ->
  exists s gd, acc' = (fst acc ++ [s], snd acc ++ [gd])%list /\
    (s_path s, s_method s) = (path, method_tag m) /\
    (g_path gd, g_method gd) = (path, method_tag m).
Proof.
  unfold run_method. intros E.
  apply bind_ok_inv in E. destruct E as ([steer hp] & h1 & _ & E).
  apply bind_ok_inv in E. destruct E as ([s gd] & h2 & Ha & E).
  apply ret_ok_inv in E. destruct E as (-> & _).
  apply analyse_steer_ok_tags in Ha. destruct Ha as (H1 & H2 & H3 & H4).
  exists s, gd. split; [reflexivity|]. now rewrite H1, H2, H3, H4.
Qed.

Lemma methods_loop_ok_inv (w : world) (default_prompt : option pyval) (big_model : bool)
    (path : string) (ms : list method) (acc acc' : list summary * list graph_data)
    (h h' : history) :
  for_each ms (run_method w default_prompt big_model path) acc h = (Ok acc', h') ->
  exists ss gs, acc' = (fst acc ++ ss, snd acc ++ gs)%list /\
    map (fun s => (s_path s, s_method s)) ss = map (fun m => (path, method_tag m)) ms /\
    map (fun g => (g_path g, g_method g)) gs = map (fun m => (path, method_tag m)) ms.
Proof.
  revert acc h. induction ms as [|m ms IH]; intros acc h E; simpl in E.
  - apply ret_ok_inv in E. destruct E as (-> & _). exists [], [].
    rewrite !app_nil_r. now destruct acc.
  - apply bind_ok_inv in E. destruct E as (acc1 & h1 & Hm & E).
    apply run_method_ok_inv in Hm. destruct Hm as (s & gd & -> & Hs & Hg).
    apply IH in E. destruct E as (ss & gs & -> & Hss & Hgs).
    exists (s :: ss), (gd :: gs). simpl. rewrite <- !app_assoc, Hs, Hg, Hss, Hgs.
    repeat split.
Qed.

Lemma paths_loop_ok_inv (w : world) (default_prompt : option pyval) (big_model : bool)
    (ps : list string) (acc acc' : list summary * list graph_data) (h h' : history) :
  for_each ps (fun path acc => for_each methods (run_method w default_prompt big_model path) acc)
           acc h = (Ok acc', h') ->
  exists ss gs, acc' = (fst acc ++ ss, snd acc ++ gs)%list /\
    map (fun s => (s_path s, s_method s)) ss = expected_pairs ps /\
    map (fun g => (g_path g, g_method g)) gs = expected_pairs ps.
Proof.
  revert acc h. induction ps as [|path ps IH]; intros acc h E; cbn [for_each] in E.
  - apply ret_ok_inv in E. destruct E as (-> & _). exists [], [].
    rewrite !app_nil_r. now destruct acc.
  - apply bind_ok_inv in E. destruct E as (acc1 & h1 & Hm & E).
    apply methods_loop_ok_inv in Hm. destruct Hm as (ss1 & gs1 & -> & Hs1 & Hg1).
    apply IH in E. destruct E as (ss & gs & -> & Hss & Hgs).
    exists (ss1 ++ ss)%list, (gs1 ++ gs)%list. cbn [fst snd].
    rewrite <- !app_assoc, !map_app, Hs1, Hg1, Hss, Hgs. repeat split.
Qed.

(** X16.  A sweep that completes has written the two run-wide files as
    its last two calls, the summaries before the curves; each holds one
    record per configuration and method, configurations in the order of
    [paths] and, within one, ActSteer, SAE, OptimisedSteer, PinverseSteer. *)
Theorem completed_sweep_records (w : world) (default_prompt : option pyval)
    (big_model : bool) (ps : list string) (h h' : history) (u : unit) :
  sweep_over w default_prompt big_model ps h = (Ok u, h') ->
  exists t results graph_data_list,
    h' = (t ++ [EvWriteJson ("steering_results_" ++ model_name big_model ++ ".json")
                            (Summaries results) None;
                EvWriteJson ("graph_data_all_methods_" ++ model_name big_model ++ ".json")
                            (Graphs graph_data_list) None])%list /\
    map (fun s => (s_path s, s_method s)) results = expected_pairs ps /\
    map (fun g => (g_path g, g_method g)) graph_data_list = expected_pairs ps /\
    length results = (4 * length ps)%nat.
Proof.
  unfold sweep_over. intros E.
  apply bind_ok_inv in E. destruct E as ([results graphs] & h1 & Hloop & E).
  apply paths_loop_ok_inv in Hloop. destruct Hloop as (ss & gs & [= -> ->] & Hss & Hgs).
  apply bind_ok_inv in E. destruct E as (u1 & h2 & Hw1 & E).
  apply call_ok_inv in Hw1. destruct Hw1 as (_ & ->).
  apply call_ok_inv in E. destruct E as (_ & ->).
  exists h1, ss, gs. split; [now rewrite <- app_assoc | split; [exact Hss | split; [exact Hgs|]]].
  rewrite <- (length_map (fun s => (s_path s, s_method s))), Hss. clear.
  induction ps as [|p ps IH]; simpl; [reflexivity | rewrite IH; lia].
Qed.

Lemma completed_sweep_records_witness :
  exists t results graph_data_list,
    snd (sweep_over whole_sweep_world (Some (PStr "I think")) false ["cfg"] []) =
      (t ++ [EvWriteJson "steering_results_gemma-2-2b.json" (Summaries results) None;
             EvWriteJson "graph_data_all_methods_gemma-2-2b.json"
                         (Graphs graph_data_list) None])%list /\
    map (fun s => (s_path s, s_method s)) results =
      [("cfg", "ActSteer"); ("cfg", "SAE"); ("cfg", "OptimisedSteer"); ("cfg", "PinverseSteer")] /\
    map (fun g => (g_path g, g_method g)) graph_data_list =
      [("cfg", "ActSteer"); ("cfg", "SAE"); ("cfg", "OptimisedSteer"); ("cfg", "PinverseSteer")] /\
    length results = 4%nat.
Proof.
  eassert (E : sweep_over whole_sweep_world (Some (PStr "I think")) false ["cfg"] [] =
               (Ok (), _)) by (vm_compute; reflexivity).
  rewrite E. cbn [snd].
  exact (completed_sweep_records _ _ _ _ _ _ _ E).
Defined.

(** ** Nothing is written before the sweep is complete *)

Lemma generated_scales_app (t1 t2 : list event) :
  generated_scales (t1 ++ t2) = (generated_scales t1 ++ generated_scales t2)%list.
Proof. apply flat_map_app. Qed.

Lemma generated_scales_iterations (steer : tensor) (hp prompt : pyval) (its : list iteration) :
  generated_scales (flat_map (iteration_events steer hp prompt) its) = map it_scale its.
Proof. induction its as [|it its IH]; simpl; [reflexivity | now rewrite <- IH]. Qed.

Lemma generated_scales_none (t : list event) :
  Forall (fun e => generated_scales [e] = []) t -> generated_scales t = [].
Proof.
  induction 1 as [|e t He _ IH]; [reflexivity|].
  change (e :: t) with ([e] ++ t)%list. now rewrite generated_scales_app, He, IH.
Qed.

Lemma traced_and_ok {A} (m : M A) (Q0 : res A -> list event -> Prop)
    (P : A -> list event -> Prop) :
  traced m Q0 ->
  (forall h a t, m h = (Ok a, (h ++ t)%list) -> P a t) ->
  traced m (fun r t => Q0 r t /\ forall a, r = Ok a -> P a t).
Proof.
  intros Hm Hok h. destruct (Hm h) as (t & Ht & Hq). exists t.
  split; [exact Ht | split; [exact Hq|]]. intros a Hr. apply (Hok h).
  destruct (m h) as [r h']. simpl in *. now subst.
Qed.

Lemma sweep_loop_trace (w : world) (steer : tensor) (hp prompt criteria : pyval)
    (l : list Z) (acc : sweep_lists) :
  traced (for_each l (sweep_step w steer hp prompt criteria) acc)
    (fun r t => Forall (fun e => is_write e = false) t /\
                forall acc', r = Ok acc' -> generated_scales t = l).
Proof.
  apply (traced_and_ok _ (every (fun e => is_write e = false) _)).
  - apply every_for_each. intros scale acc0. unfold sweep_step. repeat every_step.
  - intros h acc' t E. apply sweep_loop_ok_inv in E.
    destruct E as (its & Hsc & _ & Ht & _). apply app_inv_head in Ht. subst t.
    now rewrite generated_scales_iterations.
Qed.

(** X17.  [analyse_steer] keeps everything in memory until the last scale
    is done: whenever an output file was written, or its writing was
    tried, all sixteen batches had been generated before.  A failure at
    any scale therefore leaves nothing of that sweep on disk. *)
Theorem nothing_written_before_the_last_scale (w : world) (default_prompt : option pyval)
    (steer : tensor) (hp : pyval) (path method : string) (h : history) (t : list event)
    (r : res (summary * graph_data)) (e : event) :
  analyse_steer w default_prompt steer hp path method h = (r, (h ++ t)%list) ->
  In e t -> is_write e = true ->
  generated_scales t = py_range 0 320 20.
Proof.
  intros E Hin He.
  assert (Hq : traced (analyse_steer w default_prompt steer hp path method)
            (fun _ t => Forall (fun e => is_write e = false) t \/
                        generated_scales t = py_range 0 320 20)).
  { unfold analyse_steer, read_json. apply traced_call_bind. intros [criteria|x];
      [|left; repeat constructor].
    eapply traced_bind with
      (Q1 := every (fun e => is_write e = false /\ generated_scales [e] = []) _).
    - destruct default_prompt as [p|]; repeat every_step.
    - intros x t1 Ht1. left. constructor; [reflexivity|].
      eapply Forall_impl; [exact Ht1 | now intros e0 (H0 & _)].
    - intros prompt t1 Ht1.
      assert (Hw1 : Forall (fun e => is_write e = false) t1)
        by (eapply Forall_impl; [exact Ht1 | now intros e0 (H0 & _)]).
      assert (Hg1 : generated_scales t1 = []).
      { apply generated_scales_none. eapply Forall_impl; [exact Ht1 | now intros e0 (_ & H0)]. }
      apply traced_lift_bind. case_res;
        [|left; rewrite app_nil_r; constructor; [reflexivity | exact Hw1]].
      apply traced_lift_bind. case_res;
        [|left; rewrite app_nil_r; constructor; [reflexivity | exact Hw1]].
      eapply traced_bind; [apply sweep_loop_trace | |].
      + intros x tl (Hwl & _). left.
        constructor; [reflexivity | now apply Forall_app_2].
      + intros acc tl (_ & Hgl). specialize (Hgl acc eq_refl).
        eapply traced_weaken with (Q := every (fun e => generated_scales [e] = []) _).
        * unfold plot. repeat every_step.
        * intros r' t3 Ht3. right.
          change (EvReadJson (path_join path "criteria.json") (Ok criteria) :: (t1 ++ tl ++ t3)%list)
            with ([EvReadJson (path_join path "criteria.json") (Ok criteria)] ++ t1 ++ tl ++ t3)%list.
          rewrite !generated_scales_app, Hg1, Hgl, (generated_scales_none _ Ht3).
          simpl. now rewrite ?app_nil_r. }
  destruct (traced_run _ _ _ _ _ Hq E) as (t' & Ht & [Hnone|Hall]);
    apply app_inv_head in Ht; subst t'; [|exact Hall].
  exfalso. apply (proj1 (List.Forall_forall _ _) Hnone) in Hin. congruence.
Qed.

Lemma nothing_written_before_the_last_scale_witness :
  generated_scales
    (snd (analyse_steer full_disk_world (Some (PStr "I think")) NonFinite
            (PStr "blocks.12.hook_resid_post") "cfg" "SAE" [])) =
  py_range 0 320 20.
Proof.
  pose (run := analyse_steer full_disk_world (Some (PStr "I think")) NonFinite
                 (PStr "blocks.12.hook_resid_post") "cfg" "SAE" []).
  apply (nothing_written_before_the_last_scale full_disk_world (Some (PStr "I think"))
           NonFinite (PStr "blocks.12.hook_resid_post") "cfg" "SAE" [] (snd run) (fst run)
           (List.last (snd run) (EvLoadStateDict None))).
  - vm_compute. reflexivity.
  - vm_compute. do 33 right. left. reflexivity.
  - vm_compute. reflexivity.
Defined.

(** ** The chart *)

Lemma replace_spaces_no_space (s : string) :
  ~ In " "%char (list_ascii_of_string (replace_spaces s)).
Proof.
  induction s as [|c s IH]; simpl; [tauto|].
  intros [E|Hin]; [|now apply IH].
  destruct (Ascii.eqb c " ") eqn:Hc; [discriminate E|].
  subst c. rewrite Ascii.eqb_refl in Hc. discriminate Hc.
Qed.

Lemma replace_spaces_length (s : string) :
  String.length (replace_spaces s) = String.length s.
Proof. induction s as [|c s IH]; simpl; [reflexivity | now rewrite IH]. Qed.

(** X18.  [plot] makes one call, the writing of the chart into the
    configuration directory; the goal name enters the file name without
    spaces and with its length unchanged.  A goal name that is not a string
    makes [plot] raise [AttributeError] and write nothing. *)
Theorem plot_names_the_chart (w : world) (path : string) (coherence score product : list Q)
    (scales : list Z) (method : string) (name : pyval) (h : history) :
  match name with
  | PStr s =>
      exists fig,
        snd (plot w path coherence score product scales method name h) =
          (h ++ [EvWriteImage
                   (path_join path ("scores_" ++ replace_spaces s ++ "_" ++ method ++ ".png"))
                   fig
                   (outcome (fst (plot w path coherence score product scales method name h)))])%list
        /\ xs fig = scales /\ coherence_trace fig = coherence
        /\ score_trace fig = score /\ product_trace fig = product
        /\ ~ In " "%char (list_ascii_of_string (replace_spaces s))
        /\ String.length (replace_spaces s) = String.length s
  | _ => plot w path coherence score product scales method name h = (Raise AttributeError, h)
  end.
Proof.
  unfold plot. destruct name; try (rewrite lift_bind; reflexivity).
  rewrite lift_bind. unfold call. cbn [fst snd logged]. eexists.
  split; [reflexivity|]. repeat split;
    [apply replace_spaces_no_space | apply replace_spaces_length].
Qed.

(** ** The goal name *)

(** X20.  A completed [analyse_steer] has a string for its goal name: the
    ['name'] of the first criterion, or ["Unknown"] when that criterion has
    no such key; the summary and the curves carry the same name. *)
Theorem goal_name_of_completed_sweep (w : world) (default_prompt : option pyval)
    (steer : tensor) (hp : pyval) (path method : string) (h h' : history)
    (s : summary) (gd : graph_data) :
  analyse_steer w default_prompt steer hp path method h = (Ok (s, gd), h') ->
  exists criteria d name,
    open_json w h (path_join path "criteria.json") = Ok criteria /\
    py_getitem_int criteria 0 = Ok (PDict d) /\
    s_steering_goal_name s = PStr name /\
    g_steering_goal_name gd = PStr name /\
    match d !! "name" with
    | Some v => v = PStr name
    | None => name = "Unknown"
    end.
Proof.
  unfold analyse_steer. intros E.
  apply bind_ok_inv in E. destruct E as (criteria & h1 & Hc & E).
  apply call_ok_inv in Hc. destruct Hc as (Hc & _).
  apply bind_ok_inv in E. destruct E as (prompt & h2 & _ & E).
  apply bind_ok_inv in E. destruct E as (c0 & h3 & H0 & E). apply lift_ok_inv in H0 as (H0 & _).
  apply bind_ok_inv in E. destruct E as (name & h4 & Hn & E). apply lift_ok_inv in Hn as (Hn & _).
  apply bind_ok_inv in E. destruct E as (acc & h5 & _ & E).
  apply bind_ok_inv in E. destruct E as (mp & h6 & _ & E).
  apply bind_ok_inv in E. destruct E as (mi & h7 & _ & E).
  apply bind_ok_inv in E. destruct E as (ms & h8 & _ & E).
  apply bind_ok_inv in E. destruct E as (u1 & h9 & _ & E).
  apply bind_ok_inv in E. destruct E as (u2 & h10 & Hplot & E).
  apply ret_ok_inv in E. destruct E as ([= -> ->] & _).
  unfold plot in Hplot. apply bind_ok_inv in Hplot. destruct Hplot as (safe & h11 & Hs & _).
  apply lift_ok_inv in Hs. destruct Hs as (Hs & _).
  destruct name as [| | | |name| |]; try discriminate Hs.
  destruct c0 as [| | | | | |d]; try discriminate Hn.
  exists criteria, d, name. repeat split; try assumption.
  simpl in Hn. destruct (d !! "name"); now injection Hn.
Qed.

Lemma goal_name_of_completed_sweep_witness :
  exists s gd h',
    analyse_steer demo_world (Some (PStr "I think")) NonFinite (PStr "blocks.12.hook_resid_post")
                  "cfg" "SAE" [] = (Ok (s, gd), h')
    /\ exists criteria d name,
         open_json demo_world [] (path_join "cfg" "criteria.json") = Ok criteria /\
         py_getitem_int criteria 0 = Ok (PDict d) /\
         s_steering_goal_name s = PStr name /\
         g_steering_goal_name gd = PStr name /\
         match d !! "name" with
         | Some v => v = PStr name
         | None => name = "Unknown"
         end.
Proof.
  eassert (E : analyse_steer demo_world (Some (PStr "I think")) NonFinite
                 (PStr "blocks.12.hook_resid_post") "cfg" "SAE" [] = (Ok (_, _), _))
    by (vm_compute; reflexivity).
  eexists _, _, _. split; [exact E|].
  exact (goal_name_of_completed_sweep _ _ _ _ _ _ _ _ _ _ E).
Defined.
